(** * Tank Battle (player vs. tabular Q-learning agent): model and properties

    A shallow embedding of [shoting_game.py].  The tank mechanics, the
    Q-learning agent and the frame loop are translated function by function;
    rendering (pygame surfaces, fonts, colours) is left out.

    Conventions.
    - Python integers are [Z].
    - The numbers of the Q-table are Python floats, that is binary64.
      [QLearningAgent64] embeds [learn] with Rocq's primitive binary64
      floats, and what is proved about the numbers [learn] stores is proved
      of it.  [QLearningAgent] is the same code with exact rationals [Q] in
      the place of binary64 (compared with [==], equality of the denoted
      number); the frame loop runs on it, for properties that do not depend
      on the stored numbers or in which every number is 0, where binary64
      arithmetic is exact and the two agree
      ([learn_models_agree_on_zeros]).
    - A projectile [[x, y]] is a pair [(x, y)].
    - A per-state action row is a Python [dict]; since the order of its keys
      decides ties in [max], it is an association list in insertion order.
      The Q-table itself is only looked up by key, so it is a [gmap].
    - A raised exception ([KeyError], [ValueError]) is [None].
    - The environment (clock, keyboard, quit event, random numbers) is an
      explicit input of every function that reads it. *)

From Stdlib Require Import ZArith QArith Qabs Lqa Lia List String Bool.
From Stdlib Require Import Floats.
From stdpp Require Import gmap.

#[local] Set Warnings "-clear-no-such-hyp".
#[local] Set Warnings "-inexact-float".

Local Open Scope Z_scope.

(** ** Game constants *)

Definition GRID_SIZE : Z := 10.
Definition ACTIONS : list string :=
  ("UP" :: "DOWN" :: "LEFT" :: "RIGHT" :: "SHOOT" :: nil)%string.
Definition LEARNING_RATE : Q := (1 # 10)%Q.
Definition DISCOUNT : Q := (95 # 100)%Q.
Definition EPSILON : Q := (1 # 10)%Q.
Definition WIN_SCORE : Z := 10.

(** A projectile: column and row. *)
Definition Bullet : Type := (Z * Z)%type.

(** ** class Tank *)

Module Tank.

Definition COOLDOWN_MS : Z := 1000.

Record t : Type := mk {
  x : Z;
  y : Z;
  is_player : bool;
  bullets : list Bullet;
  last_shot_time : Z
}.

(** [Tank.__init__(x, y, is_player=False)] *)
Definition init (x0 y0 : Z) (p : bool) : t :=
  {| x := x0; y := y0; is_player := p; bullets := nil; last_shot_time := 0 |}.

Definition set_x (v : Z) (self : t) : t :=
  {| x := v; y := y self; is_player := is_player self;
     bullets := bullets self; last_shot_time := last_shot_time self |}.

Definition set_y (v : Z) (self : t) : t :=
  {| x := x self; y := v; is_player := is_player self;
     bullets := bullets self; last_shot_time := last_shot_time self |}.

Definition set_bullets (bs : list Bullet) (self : t) : t :=
  {| x := x self; y := y self; is_player := is_player self;
     bullets := bs; last_shot_time := last_shot_time self |}.

Definition set_last_shot_time (v : Z) (self : t) : t :=
  {| x := x self; y := y self; is_player := is_player self;
     bullets := bullets self; last_shot_time := v |}.

(** [move]: four independent [if] statements, run one after the other. *)
Definition move (direction : string) (self : t) : t :=
  let self :=
    if (direction =? "UP")%string && (y self >? 0)
    then set_y (y self - 1) self else self in
  let self :=
    if (direction =? "DOWN")%string && (y self <? GRID_SIZE - 1)
    then set_y (y self + 1) self else self in
  let self :=
    if (direction =? "LEFT")%string && (x self >? 0)
    then set_x (x self - 1) self else self in
  let self :=
    if (direction =? "RIGHT")%string && (x self <? GRID_SIZE - 1)
    then set_x (x self + 1) self else self in
  self.

(** [can_shoot]: [now] is the value read from [pygame.time.get_ticks()]. *)
Definition can_shoot (now : Z) (self : t) : bool :=
  now - last_shot_time self >=? COOLDOWN_MS.

(** [shoot] reads the clock twice: [ticks.1] inside [can_shoot] and, only
    when the shot is fired, [ticks.2] for the stored time stamp. *)
Definition shoot (ticks : Z * Z) (self : t) : t :=
  if can_shoot (fst ticks) self then
    let self :=
      set_bullets
        (bullets self ++
           (x self, if is_player self then y self - 1 else y self + 1) :: nil)
        self in
    set_last_shot_time (snd ticks) self
  else self.

(** The [for] loop of [update_bullets]: every projectile's row is changed
    in place. *)
Fixpoint shift_rows (dy : Z) (bs : list Bullet) : list Bullet :=
  match bs with
  | nil => nil
  | b :: rest => (fst b, snd b + dy) :: shift_rows dy rest
  end.

(** The comprehension [[b for b in self.bullets if 0 <= b[1] < GRID_SIZE]]. *)
Fixpoint keep_in_grid (bs : list Bullet) : list Bullet :=
  match bs with
  | nil => nil
  | b :: rest =>
      if (0 <=? snd b) && (snd b <? GRID_SIZE)
      then b :: keep_in_grid rest
      else keep_in_grid rest
  end.

Definition update_bullets (self : t) : t :=
  let moved := shift_rows (if is_player self then -1 else 1) (bullets self) in
  set_bullets (keep_in_grid moved) self.

End Tank.

(** ** Python built-ins used by the agent *)

(** [a < b] on numbers. *)
Definition Qlt_bool (a b : Q) : bool := negb (Qle_bool b a).

(** A [dict] from action names to numbers, in insertion order. *)
Definition Row : Type := list (string * Q).

(** [d[k]]; a missing key raises [KeyError]. *)
Fixpoint dict_get (k : string) (d : Row) : option Q :=
  match d with
  | nil => None
  | (k', v) :: rest => if (k' =? k)%string then Some v else dict_get k rest
  end.

(** [d[k] = v]: an existing key keeps its place, a new key goes last. *)
Fixpoint dict_set (k : string) (v : Q) (d : Row) : Row :=
  match d with
  | nil => (k, v) :: nil
  | (k', v') :: rest =>
      if (k' =? k)%string then (k', v) :: rest else (k', v') :: dict_set k v rest
  end.

(** [d.values()] and iteration over [d] (its keys). *)
Definition dict_values (d : Row) : list Q := List.map snd d.
Definition dict_keys (d : Row) : list string := List.map fst d.

(** The loop of [max]: the running maximum is replaced only by a strictly
    greater item, so the first of several maximal items is returned. *)
Fixpoint max_from (best : Q) (items : list Q) : Q :=
  match items with
  | nil => best
  | v :: rest => max_from (if Qlt_bool best v then v else best) rest
  end.

(** [max(iterable)]; an empty iterable raises [ValueError]. *)
Definition py_max (items : list Q) : option Q :=
  match items with
  | nil => None
  | v :: rest => Some (max_from v rest)
  end.

(** The loop of [max(d, key=d.get)]: [best] is the running item and [bestv]
    its key value.  [d.get] cannot fail on a key taken from [d] itself; the
    [None] branch is kept for the shape of the code. *)
Fixpoint max_key_from (d : Row) (best : string) (bestv : Q)
    (items : list string) : option string :=
  match items with
  | nil => Some best
  | k :: rest =>
      match dict_get k d with
      | None => None
      | Some v =>
          if Qlt_bool bestv v then max_key_from d k v rest
          else max_key_from d best bestv rest
      end
  end.

Definition py_max_key (d : Row) : option string :=
  match dict_keys d with
  | nil => None
  | k :: rest =>
      match dict_get k d with
      | None => None
      | Some v => max_key_from d k v rest
      end
  end.

(** [random.choice(seq)]: [pick] is the raw draw, reduced to an index of
    the sequence; an empty sequence raises [IndexError]. *)
Definition random_choice (pick : nat) (seq : list string) : option string :=
  nth_error seq (pick mod length seq)%nat.

(** ** class QLearningAgent (with exact rationals for the numbers) *)

Module QLearningAgent.

(** The key of the Q-table: [(ai.x, ai.y, player.x, player.y)]. *)
Definition State : Type := (Z * Z * Z * Z)%type.

Abbreviation QTable := (gmap State Row).

(** [QLearningAgent.__init__]: [self.q_table = {}]. *)
Definition init : QTable := ∅.

Definition get_state (ai player : Tank.t) : State :=
  (Tank.x ai, Tank.y ai, Tank.x player, Tank.y player).

(** [{a: 0 for a in ACTIONS}] *)
Definition zero_row : Row := List.map (fun a => (a, 0%Q)) ACTIONS.

(** [choose_action] draws [random.random()] (here [rnd], a number of the
    interval [0, 1)) before it looks at the table, and calls
    [random.choice] (raw draw [pick]) only on the exploring branch.  The
    table is handed back next to the result, as the method could have
    changed it. *)
Definition choose_action (rnd : Q) (pick : nat) (state : State)
    (q_table : QTable) : option (string * QTable) :=
  if Qlt_bool rnd EPSILON || negb (bool_decide (is_Some (q_table !! state)))
  then
    match random_choice pick ACTIONS with
    | Some a => Some (a, q_table)
    | None => None
    end
  else
    match q_table !! state with
    | None => None
    | Some row =>
        match py_max_key row with
        | Some a => Some (a, q_table)
        | None => None
        end
    end.

(** One round of the loop [for s in (old_s, new_s)]. *)
Definition ensure (s : State) (q_table : QTable) : QTable :=
  match q_table !! s with
  | None => <[s := zero_row]> q_table
  | Some _ => q_table
  end.

(** [learn], with the two module constants it reads as arguments, so that
    properties of the update rule can be stated for any learning rate. *)
Definition learn_with (alpha gamma : Q) (old_s : State) (action : string)
    (reward : Q) (new_s : State) (q_table : QTable) : option QTable :=
  let q_table := ensure new_s (ensure old_s q_table) in
  match q_table !! old_s with
  | None => None
  | Some row =>
      match dict_get action row with
      | None => None
      | Some old_q =>
          match q_table !! new_s with
          | None => None
          | Some nrow =>
              match py_max (dict_values nrow) with
              | None => None
              | Some future_q =>
                  let updated_q :=
                    (old_q + alpha * (reward + gamma * future_q - old_q))%Q in
                  Some (<[old_s := dict_set action updated_q row]> q_table)
              end
          end
      end
  end.

(** [learn] as the source has it. *)
Definition learn : State -> string -> Q -> State -> QTable -> option QTable :=
  learn_with LEARNING_RATE DISCOUNT.

End QLearningAgent.

(** ** The agent's numbers: binary64

    The values of the Q-table are Python floats, that is IEEE 754 binary64
    numbers with round-to-nearest-even, the numbers and operations of
    Rocq's primitive [float].  What follows is [learn] again, with these
    numbers.  The integer [0] that the code stores in a fresh row, and passes
    as reward, is the float [0] here: Python converts it to that float in the
    first arithmetic operation or comparison it takes part in. *)

(** A [dict] from action names to binary64 numbers, in insertion order. *)
Definition Row64 : Type := list (string * float).

(** [d[k]]; a missing key raises [KeyError]. *)
Fixpoint dict_get64 (k : string) (d : Row64) : option float :=
  match d with
  | nil => None
  | (k', v) :: rest => if (k' =? k)%string then Some v else dict_get64 k rest
  end.

(** [d[k] = v]: an existing key keeps its place, a new key goes last. *)
Fixpoint dict_set64 (k : string) (v : float) (d : Row64) : Row64 :=
  match d with
  | nil => (k, v) :: nil
  | (k', v') :: rest =>
      if (k' =? k)%string then (k', v) :: rest
      else (k', v') :: dict_set64 k v rest
  end.

Definition dict_values64 (d : Row64) : list float := List.map snd d.
Definition dict_keys64 (d : Row64) : list string := List.map fst d.

(** The loop of [max] with the comparison [>] of binary64: a NaN is never
    greater and nothing is greater than a NaN. *)
Fixpoint max_from64 (best : float) (items : list float) : float :=
  match items with
  | nil => best
  | v :: rest => max_from64 (if (best <? v)%float then v else best) rest
  end.

(** [max(iterable)]; an empty iterable raises [ValueError]. *)
Definition py_max64 (items : list float) : option float :=
  match items with
  | nil => None
  | v :: rest => Some (max_from64 v rest)
  end.

Module QLearningAgent64.

(** [LEARNING_RATE = 0.1] and [DISCOUNT = 0.95]: the binary64 numbers
    nearest to these decimals, as Python reads them. *)
Definition LEARNING_RATE : float := 0.1%float.
Definition DISCOUNT : float := 0.95%float.

Abbreviation QTable := (gmap QLearningAgent.State Row64).

(** [self.q_table = {}] *)
Definition init : QTable := ∅.

(** [{a: 0 for a in ACTIONS}] *)
Definition zero_row : Row64 := List.map (fun a => (a, 0%float)) ACTIONS.

(** One round of the loop [for s in (old_s, new_s)]. *)
Definition ensure (s : QLearningAgent.State) (q_table : QTable) : QTable :=
  match q_table !! s with
  | None => <[s := zero_row]> q_table
  | Some _ => q_table
  end.

(** [learn], with the two module constants it reads as arguments, so that
    properties of the update rule can be stated for any learning rate.
    Every operation is the binary64 operation; none of them raises. *)
Definition learn_with (alpha gamma : float) (old_s : QLearningAgent.State)
    (action : string) (reward : float) (new_s : QLearningAgent.State)
    (q_table : QTable) : option QTable :=
  let q_table := ensure new_s (ensure old_s q_table) in
  match q_table !! old_s with
  | None => None
  | Some row =>
      match dict_get64 action row with
      | None => None
      | Some old_q =>
          match q_table !! new_s with
          | None => None
          | Some nrow =>
              match py_max64 (dict_values64 nrow) with
              | None => None
              | Some future_q =>
                  let updated_q :=
                    (old_q + alpha * (reward + gamma * future_q - old_q))%float
                  in
                  Some (<[old_s := dict_set64 action updated_q row]> q_table)
              end
          end
      end
  end.

(** [learn] as the source has it. *)
Definition learn
    : QLearningAgent.State -> string -> float -> QLearningAgent.State ->
      QTable -> option QTable :=
  learn_with LEARNING_RATE DISCOUNT.

End QLearningAgent64.

(** ** The frame loop of [main] *)

(** [list.remove(b)]: drops the first item equal to [b]; [ValueError] when
    there is none. *)
Fixpoint list_remove (b : Bullet) (l : list Bullet) : option (list Bullet) :=
  match l with
  | nil => None
  | c :: rest =>
      if (fst c =? fst b) && (snd c =? snd b) then Some rest
      else match list_remove b rest with
           | Some rest' => Some (c :: rest')
           | None => None
           end
  end.

(** One hit-detection loop:
    [for b in shooter.bullets[:]: if b == target: remove; pts += 1; break].
    [snapshot] is what is left of the copy being iterated, [bs] the live
    list and [pts] the counter. *)
Fixpoint hit_scan (snapshot bs : list Bullet) (tx ty pts : Z)
    : option (list Bullet * Z) :=
  match snapshot with
  | nil => Some (bs, pts)
  | b :: rest =>
      if (fst b =? tx) && (snd b =? ty) then
        match list_remove b bs with
        | Some bs' => Some (bs', pts + 1)
        | None => None
        end
      else hit_scan rest bs tx ty pts
  end.

(** The local variables of [main] together with the global [agent]. *)
Record Game : Type := mkGame {
  player : Tank.t;
  ai : Tank.t;
  player_pts : Z;
  ai_pts : Z;
  run : bool;
  q_table : QLearningAgent.QTable
}.

(** What one frame reads from the outside world. *)
Record Env : Type := mkEnv {
  quit : bool;                (* a QUIT event is in the queue *)
  K_LEFT : bool;
  K_RIGHT : bool;
  K_UP : bool;
  K_DOWN : bool;
  K_SPACE : bool;
  player_ticks : Z * Z;       (* clock readings of [player.shoot()] *)
  ai_ticks : Z * Z;           (* clock readings of [ai.shoot()] *)
  rnd : Q;                    (* [random.random()] *)
  pick : nat                  (* raw draw of [random.choice] *)
}.

(** The state [main] starts its loop in. *)
Definition main_init : Game :=
  {| player := Tank.init 5 9 true;
     ai := Tank.init 5 0 false;
     player_pts := 0;
     ai_pts := 0;
     run := true;
     q_table := QLearningAgent.init |}.

Definition set_player (p : Tank.t) (g : Game) : Game :=
  {| player := p; ai := ai g; player_pts := player_pts g; ai_pts := ai_pts g;
     run := run g; q_table := q_table g |}.

Definition set_ai (a : Tank.t) (g : Game) : Game :=
  {| player := player g; ai := a; player_pts := player_pts g;
     ai_pts := ai_pts g; run := run g; q_table := q_table g |}.

Definition set_run (r : bool) (g : Game) : Game :=
  {| player := player g; ai := ai g; player_pts := player_pts g;
     ai_pts := ai_pts g; run := r; q_table := q_table g |}.

(** Events: a QUIT event clears the run flag; the frame goes on. *)
Definition handle_events (e : Env) (g : Game) : Game :=
  if quit e then set_run false g else g.

(** Player input: five independent [if] statements. *)
Definition player_input (e : Env) (g : Game) : Game :=
  let p := player g in
  let p := if K_LEFT e then Tank.move "LEFT" p else p in
  let p := if K_RIGHT e then Tank.move "RIGHT" p else p in
  let p := if K_UP e then Tank.move "UP" p else p in
  let p := if K_DOWN e then Tank.move "DOWN" p else p in
  let p := if K_SPACE e then Tank.shoot (player_ticks e) p else p in
  set_player p g.

(** [action in {'UP','DOWN','LEFT','RIGHT'}] *)
Definition is_move (action : string) : bool :=
  (action =? "UP")%string || (action =? "DOWN")%string
  || (action =? "LEFT")%string || (action =? "RIGHT")%string.

(** AI decision: returns the state key and the action next to the game, as
    the learning step needs both. *)
Definition ai_decision (e : Env) (g : Game)
    : option (QLearningAgent.State * string * Game) :=
  let state := QLearningAgent.get_state (ai g) (player g) in
  match QLearningAgent.choose_action (rnd e) (pick e) state (q_table g) with
  | None => None
  | Some (action, qt) =>
      let g := {| player := player g; ai := ai g; player_pts := player_pts g;
                  ai_pts := ai_pts g; run := run g; q_table := qt |} in
      let a := ai g in
      let a := if is_move action then Tank.move action a else a in
      let a := if (action =? "SHOOT")%string then Tank.shoot (ai_ticks e) a
               else a in
      Some (state, action, set_ai a g)
  end.

(** Update bullets: the player's first, then the AI's. *)
Definition update_phase (g : Game) : Game :=
  let g := set_player (Tank.update_bullets (player g)) g in
  set_ai (Tank.update_bullets (ai g)) g.

(** Hit detection and scoring: the AI's projectiles against the player,
    then the player's against the AI. *)
Definition hit_detection (g : Game) : option Game :=
  match hit_scan (Tank.bullets (ai g)) (Tank.bullets (ai g))
          (Tank.x (player g)) (Tank.y (player g)) (ai_pts g) with
  | None => None
  | Some (abs, apts) =>
      let g := {| player := player g; ai := Tank.set_bullets abs (ai g);
                  player_pts := player_pts g; ai_pts := apts;
                  run := run g; q_table := q_table g |} in
      match hit_scan (Tank.bullets (player g)) (Tank.bullets (player g))
              (Tank.x (ai g)) (Tank.y (ai g)) (player_pts g) with
      | None => None
      | Some (pbs, ppts) =>
          Some {| player := Tank.set_bullets pbs (player g); ai := ai g;
                  player_pts := ppts; ai_pts := ai_pts g;
                  run := run g; q_table := q_table g |}
      end
  end.

(** RL learning: the reward passed is the constant 0. *)
Definition learn_phase (state : QLearningAgent.State) (action : string)
    (g : Game) : option Game :=
  match QLearningAgent.learn state action 0%Q
          (QLearningAgent.get_state (ai g) (player g)) (q_table g) with
  | None => None
  | Some qt =>
      Some {| player := player g; ai := ai g; player_pts := player_pts g;
              ai_pts := ai_pts g; run := run g; q_table := qt |}
  end.

(** Win check. *)
Definition win_check (g : Game) : Game :=
  if (player_pts g >=? WIN_SCORE) || (ai_pts g >=? WIN_SCORE)
  then set_run false g else g.

(** The game as it stands when hit detection starts. *)
Definition before_hits (e : Env) (g : Game)
    : option (QLearningAgent.State * string * Game) :=
  match ai_decision e (player_input e (handle_events e g)) with
  | None => None
  | Some (state, action, g) => Some (state, action, update_phase g)
  end.

(** The body of [while run:]. *)
Definition frame (e : Env) (g : Game) : option Game :=
  match before_hits e g with
  | None => None
  | Some (state, action, g) =>
      match hit_detection g with
      | None => None
      | Some g =>
          match learn_phase state action g with
          | None => None
          | Some g => Some (win_check g)
          end
      end
  end.

(** [while run: ...] fed with the inputs of successive frames.  The second
    component counts the frames that were executed. *)
Fixpoint main_loop (envs : list Env) (g : Game) : option (Game * nat) :=
  match envs with
  | nil => Some (g, 0%nat)
  | e :: rest =>
      if run g then
        match frame e g with
        | None => None
        | Some g' =>
            match main_loop rest g' with
            | None => None
            | Some (g'', n) => Some (g'', S n)
            end
        end
      else Some (g, 0%nat)
  end.

(** * Vocabulary of the properties *)

(** A coordinate of the grid. *)
Definition in_grid (v : Z) : Prop := 0 <= v <= GRID_SIZE - 1.

(** The one-cell displacement a direction asks for; [None] for a string
    that is not a direction. *)
Definition step_of (direction : string) : option (Z * Z) :=
  if (direction =? "UP")%string then Some (0, -1)
  else if (direction =? "DOWN")%string then Some (0, 1)
  else if (direction =? "LEFT")%string then Some (-1, 0)
  else if (direction =? "RIGHT")%string then Some (1, 0)
  else None.

Ltac case_direction d :=
  destruct (String.eqb_spec d "UP") as [->|?];
  [|destruct (String.eqb_spec d "DOWN") as [->|?];
    [|destruct (String.eqb_spec d "LEFT") as [->|?];
      [|destruct (String.eqb_spec d "RIGHT") as [->|?]]]].

Ltac case_cmp :=
  repeat match goal with
  | |- context [?a >? ?b] => rewrite (Z.gtb_ltb a b)
  | |- context [?a >=? ?b] => rewrite (Z.geb_leb a b)
  | |- context [?a <? ?b] => destruct (Z.ltb_spec a b)
  | |- context [?a <=? ?b] => destruct (Z.leb_spec a b)
  | |- context [?a =? ?b] => destruct (Z.eqb_spec a b)
  end.

(** The cell in front of the tank, on the opponent's side. *)
Definition muzzle (self : Tank.t) : Bullet :=
  (Tank.x self, if Tank.is_player self then Tank.y self - 1 else Tank.y self + 1).

(** Equality of projectiles is decidable. *)
Definition Bullet_eq_dec (a b : Bullet) : {a = b} + {a <> b}.
Proof. decide equality; apply Z.eq_dec. Defined.
Arguments Bullet_eq_dec : simpl never.

(** The number of projectiles of the list [bs] that sit on the cell [b]. *)
Definition occurrences (b : Bullet) (bs : list Bullet) : nat :=
  count_occ Bullet_eq_dec bs b.

(** Every row of the table has the five actions as its keys, in the order
    of [ACTIONS]: the shape [learn] gives a row when it creates it. *)
Definition table_wf (q : QLearningAgent.QTable) : Prop :=
  forall (s : QLearningAgent.State) (row : Row),
    q !! s = Some row -> dict_keys row = ACTIONS.

(** The value estimate [Q(s,a)] a table stands for; a state the table has
    not seen yet counts as 0, the value lazy initialisation gives it. *)
Definition q_value (q : QLearningAgent.QTable) (s : QLearningAgent.State)
    (a : string) : Q :=
  match q !! s with
  | Some row => default 0%Q (dict_get a row)
  | None => 0%Q
  end.

(** The state key of the first frame of a game, and the key after the AI
    has moved one row down. *)
Definition first_state : QLearningAgent.State := (5, 0, 5, 9).
Definition second_state : QLearningAgent.State := (5, 1, 5, 9).

(** The outcome of one hit-detection loop on the list [bs] against the cell
    [target]: either the first projectile on that cell is taken out and the
    counter goes up by one, or no projectile is on the cell and nothing
    changes. *)
Definition hit_outcome (target : Bullet) (bs : list Bullet) (pts : Z)
    (bs' : list Bullet) (pts' : Z) : Prop :=
  (exists l1 l2, bs = l1 ++ target :: l2 /\ ~ In target l1
                 /\ bs' = l1 ++ l2 /\ pts' = pts + 1)
  \/ (~ In target bs /\ bs' = bs /\ pts' = pts).

(** What the AI's tank does with the chosen action. *)
Definition ai_act (e : Env) (action : string) (a : Tank.t) : Tank.t :=
  let a := if is_move action then Tank.move action a else a in
  if (action =? "SHOOT")%string then Tank.shoot (ai_ticks e) a else a.

(** The invariant of the loop: the table is well formed, and a score at the
    win threshold comes with a cleared run flag. *)
Definition loop_inv (g : Game) : Prop :=
  table_wf (q_table g)
  /\ (WIN_SCORE <= player_pts g \/ WIN_SCORE <= ai_pts g -> run g = false).

(** A game in which the player, with 9 points, has a projectile one row
    below the AI: in the next frame the projectile moves onto the AI's cell
    and the player scores the tenth point. *)
Definition last_frame_game : Game :=
  {| player := Tank.set_bullets ((5, 1) :: nil) (Tank.init 5 9 true);
     ai := Tank.init 5 0 false;
     player_pts := 9; ai_pts := 0; run := true;
     q_table := QLearningAgent.init |}.

(** The input of a frame in which no key is pressed, the clock reads 0 and
    the agent draws 1/2 and the index 4. *)
Definition idle_env : Env :=
  {| quit := false; K_LEFT := false; K_RIGHT := false; K_UP := false;
     K_DOWN := false; K_SPACE := false; player_ticks := (0, 0);
     ai_ticks := (0, 0); rnd := (1 # 2)%Q; pick := 4%nat |}.

(** Every projectile of the list has its row on the grid. *)
Definition rows_in_grid (bs : list Bullet) : Prop :=
  forall b, In b bs -> in_grid (snd b).

(** The tank stands on the last row in its firing direction. *)
Definition on_far_row (self : Tank.t) : Prop :=
  (Tank.is_player self = true /\ Tank.y self = 0)
  \/ (Tank.is_player self = false /\ Tank.y self = GRID_SIZE - 1).

(** A tank that has no projectile in flight and has never fired. *)
Definition quiet (self : Tank.t) : Prop :=
  Tank.bullets self = nil /\ Tank.last_shot_time self = 0.

(** Every shot attempt of the frame reads a clock below the cooldown. *)
Definition early (e : Env) : Prop :=
  fst (player_ticks e) < Tank.COOLDOWN_MS /\ fst (ai_ticks e) < Tank.COOLDOWN_MS.

(** * Vocabulary of the further properties *)

(** The tank stands on a cell of the grid. *)
Definition tank_on_grid (self : Tank.t) : Prop :=
  in_grid (Tank.x self) /\ in_grid (Tank.y self).

(** Every projectile of the list is in a column of the grid. *)
Definition cols_in_grid (bs : list Bullet) : Prop :=
  forall b, In b bs -> in_grid (fst b).

(** A tank as the loop sees it between two frames: on the grid, with all
    its projectiles on the grid. *)
Definition tank_ok (self : Tank.t) : Prop :=
  tank_on_grid self
  /\ cols_in_grid (Tank.bullets self) /\ rows_in_grid (Tank.bullets self).

(** Both counters lie between 0 and the win threshold. *)
Definition scores_ok (g : Game) : Prop :=
  0 <= player_pts g <= WIN_SCORE /\ 0 <= ai_pts g <= WIN_SCORE.

(** What holds of the game whenever the loop tests its run flag. *)
Definition game_inv (g : Game) : Prop :=
  loop_inv g /\ tank_ok (player g) /\ tank_ok (ai g) /\ scores_ok g.

(** The tank is on the grid and its projectiles are in columns of the
    grid; their rows may be off the grid until the next update. *)
Definition armed_ok (self : Tank.t) : Prop :=
  tank_on_grid self /\ cols_in_grid (Tank.bullets self).

(** The input [e] without its QUIT event. *)
Definition no_quit (e : Env) : Env :=
  {| quit := false; K_LEFT := K_LEFT e; K_RIGHT := K_RIGHT e; K_UP := K_UP e;
     K_DOWN := K_DOWN e; K_SPACE := K_SPACE e;
     player_ticks := player_ticks e; ai_ticks := ai_ticks e;
     rnd := rnd e; pick := pick e |}.

(** The input [idle_env] with a QUIT event in the queue. *)
Definition quit_env : Env :=
  {| quit := true; K_LEFT := false; K_RIGHT := false; K_UP := false;
     K_DOWN := false; K_SPACE := false; player_ticks := (0, 0);
     ai_ticks := (0, 0); rnd := (1 # 2)%Q; pick := 4%nat |}.

(** Every value stored in the table is 0. *)
Definition table_zero (q : QLearningAgent.QTable) : Prop :=
  forall (s : QLearningAgent.State) (row : Row) (v : Q),
    q !! s = Some row -> In v (dict_values row) -> (v == 0)%Q.

(** A table with one non-zero estimate, for the first state. *)
Definition sample_table : QLearningAgent.QTable :=
  <[first_state := dict_set "DOWN" 1%Q QLearningAgent.zero_row]> ∅.

(** A state key made of grid coordinates. *)
Definition key_on_grid (s : QLearningAgent.State) : Prop :=
  let '(ax, ay, px, py) := s in
  in_grid ax /\ in_grid ay /\ in_grid px /\ in_grid py.

(** The number of a state key in the row-major enumeration of the
    [GRID_SIZE^4] keys made of grid coordinates. *)
Definition key_index (s : QLearningAgent.State) : nat :=
  let '(ax, ay, px, py) := s in
  Z.to_nat (((ax * GRID_SIZE + ay) * GRID_SIZE + px) * GRID_SIZE + py).

(** Every key of the table is made of grid coordinates. *)
Definition keys_on_grid (q : QLearningAgent.QTable) : Prop :=
  forall s : QLearningAgent.State, is_Some (q !! s) -> key_on_grid s.

(** [n] calls of [update_bullets] in a row, with no shot in between. *)
Definition updates (n : nat) (self : Tank.t) : Tank.t :=
  Nat.iter n Tank.update_bullets self.

(** The row step of a tank's projectiles: up for the player's, down for the
    AI's. *)
Definition row_dy (self : Tank.t) : Z := if Tank.is_player self then -1 else 1.

(** ** Rendering: [Tank.draw] *)

Definition WIDTH : Z := 600.
Definition HEIGHT : Z := 600.

(** [CELL_SIZE = WIDTH // GRID_SIZE] *)
Definition CELL_SIZE : Z := WIDTH / GRID_SIZE.

(** An RGB colour. *)
Definition Color : Type := (Z * Z * Z)%type.

(** A call of [pygame.draw.rect(win, color, (left, top, width, height))] or
    of [pygame.draw.circle(win, color, (cx, cy), radius)]. *)
Inductive Shape : Type :=
  | Rect (color : Color) (left top width height : Z)
  | Circle (color : Color) (cx cy radius : Z).

(** The field [color]: [__init__] sets it from [is_player] and nothing
    assigns it afterwards. *)
Definition Tank_color (self : Tank.t) : Color :=
  if Tank.is_player self then (0, 255, 0) else (255, 0, 0).

(** [Tank.draw]: the drawing calls it makes on the window, in order. *)
Definition Tank_draw (self : Tank.t) : list Shape :=
  Rect (Tank_color self)
    (Tank.x self * CELL_SIZE) (Tank.y self * CELL_SIZE) CELL_SIZE CELL_SIZE
  :: List.map
       (fun b : Bullet =>
          Circle (Tank_color self)
            (fst b * CELL_SIZE + CELL_SIZE / 2)
            (snd b * CELL_SIZE + CELL_SIZE / 2)
            5)
       (Tank.bullets self).

(** The pixels a shape covers lie between these bounds:
    [(left, top, right, bottom)]. *)
Definition bounding_box (s : Shape) : Z * Z * Z * Z :=
  match s with
  | Rect _ l t w h => (l, t, l + w, t + h)
  | Circle _ cx cy r => (cx - r, cy - r, cx + r, cy + r)
  end.

(** The pixel square of the cell in column [c] and row [r]. *)
Definition cell_box (c r : Z) : Z * Z * Z * Z :=
  (c * CELL_SIZE, r * CELL_SIZE, (c + 1) * CELL_SIZE, (r + 1) * CELL_SIZE).

(** The first box lies within the second. *)
Definition box_within (inner outer : Z * Z * Z * Z) : Prop :=
  let '(l, t, r, b) := inner in
  let '(L, T, R, B) := outer in
  L <= l /\ T <= t /\ l <= r /\ t <= b /\ r <= R /\ b <= B.

Ltac case_ltb :=
  repeat match goal with
  | |- context [if ?a <? ?b then _ else _] => destruct (Z.ltb_spec a b)
  | |- context [if ?a =? ?b then _ else _] => destruct (Z.eqb_spec a b)
  end.

(** A game in which a player projectile is in the cell just below the AI's
    tank, and the input of a frame in which the agent explores and draws
    "DOWN". *)
Definition face_to_face : Game :=
  {| player := Tank.set_bullets ((5, 4) :: nil) (Tank.init 5 9 true);
     ai := Tank.init 5 3 false;
     player_pts := 0; ai_pts := 0; run := true;
     q_table := QLearningAgent.init |}.

Definition ai_down_env : Env :=
  {| quit := false; K_LEFT := false; K_RIGHT := false; K_UP := false;
     K_DOWN := false; K_SPACE := false; player_ticks := (0, 0);
     ai_ticks := (0, 0); rnd := (1 # 20)%Q; pick := 1%nat |}.

(** * Vocabulary of the binary64 properties *)

(** Every row of the binary64 table has the five actions as its keys, in
    the order of [ACTIONS]. *)
Definition table_wf64 (q : QLearningAgent64.QTable) : Prop :=
  forall (s : QLearningAgent.State) (row : Row64),
    q !! s = Some row -> dict_keys64 row = ACTIONS.

(** Every value stored in the binary64 table is the float [0]. *)
Definition table_zero64 (q : QLearningAgent64.QTable) : Prop :=
  forall (s : QLearningAgent.State) (row : Row64) (v : float),
    q !! s = Some row -> In v (dict_values64 row) -> v = 0%float.

(** The estimate [Q(s,a)] a binary64 table stands for; a state the table
    has not seen yet counts as 0, the value lazy initialisation gives it. *)
Definition q_value64 (q : QLearningAgent64.QTable) (s : QLearningAgent.State)
    (a : string) : float :=
  match q !! s with
  | Some row => default 0%float (dict_get64 a row)
  | None => 0%float
  end.



(** A row that holds [v] for the action [a] and 0 for the others. *)
Definition row_with (a : string) (v : float) : Row64 :=
  dict_set64 a v QLearningAgent64.zero_row.



(** A table in which [Q(first_state, "DOWN")] is 1 and nothing else is
    known. *)
Definition one_table : QLearningAgent64.QTable :=
  <[first_state := row_with "DOWN" 1%float]> ∅.




(** * Properties *)

(** ** Tank *)

Lemma move_other_fields direction self :
  Tank.is_player (Tank.move direction self) = Tank.is_player self /\
  Tank.bullets (Tank.move direction self) = Tank.bullets self /\
  Tank.last_shot_time (Tank.move direction self) = Tank.last_shot_time self.
Proof.
  unfold Tank.move.
  repeat match goal with
  | |- context [if ?c then _ else _] => destruct c
  end; simpl; auto.
Qed.

Lemma move_in_grid direction self :
  in_grid (Tank.x self) -> in_grid (Tank.y self) ->
  in_grid (Tank.x (Tank.move direction self)) /\
  in_grid (Tank.y (Tank.move direction self)).
Proof.
  unfold in_grid, GRID_SIZE. intros Hx Hy.
  destruct self as [x0 y0 p bs l]; simpl in *.
  case_direction direction; unfold Tank.move, GRID_SIZE; simpl;
    try (rewrite !(proj2 (String.eqb_neq _ _)) by assumption; simpl; lia);
    case_cmp; simpl; lia.
Qed.

(** C3. For a tank standing on the grid, [move] puts the tank on the
    neighbouring cell in the requested direction exactly when that cell is
    on the grid; otherwise the tank is returned as it was.  [move] is a
    total function (nothing is raised), it never leaves the grid, it touches
    nothing but the position, and a string that is no direction changes
    nothing. *)
Theorem C3_move_one_cell_iff_in_grid (direction : string) (self : Tank.t) :
  in_grid (Tank.x self) -> in_grid (Tank.y self) ->
  let self' := Tank.move direction self in
  (forall dx dy, step_of direction = Some (dx, dy) ->
     let tx := Tank.x self + dx in
     let ty := Tank.y self + dy in
     ((Tank.x self' = tx /\ Tank.y self' = ty) <-> (in_grid tx /\ in_grid ty))
     /\ (~ (in_grid tx /\ in_grid ty) -> self' = self))
  /\ (step_of direction = None -> self' = self)
  /\ in_grid (Tank.x self') /\ in_grid (Tank.y self')
  /\ Tank.is_player self' = Tank.is_player self
  /\ Tank.bullets self' = Tank.bullets self
  /\ Tank.last_shot_time self' = Tank.last_shot_time self.
Proof.
  intros Hx Hy self'.
  split; [|split; [|split; [apply move_in_grid; assumption
                           |split; [apply move_in_grid; assumption
                                   |apply move_other_fields]]]].
  - intros dx dy Hstep tx ty. subst self' tx ty.
    unfold in_grid, GRID_SIZE in *.
    destruct self as [x0 y0 p bs l]; simpl in *.
    case_direction direction; unfold step_of in Hstep; simpl in Hstep;
      try (rewrite !(proj2 (String.eqb_neq _ _)) in Hstep by assumption;
           discriminate);
      injection Hstep as <- <-;
      unfold Tank.move, GRID_SIZE; simpl; case_cmp; simpl;
      (split; [split; intros; lia | intros; first [reflexivity | exfalso; lia]]).
  - intros Hstep. subst self'.
    case_direction direction; unfold step_of in Hstep; simpl in Hstep;
      try discriminate.
    unfold Tank.move.
    rewrite !(proj2 (String.eqb_neq _ _)) by assumption. reflexivity.
Qed.

(** The theorem at a tank in the top-left corner that is asked to go up. *)
Lemma C3_move_witness :
  let self := Tank.init 0 0 false in
  in_grid (Tank.x (Tank.move "UP" self)) /\
  in_grid (Tank.y (Tank.move "UP" self)).
Proof.
  intros self.
  assert (Hx : in_grid (Tank.x self)) by (unfold in_grid, GRID_SIZE; simpl; lia).
  assert (Hy : in_grid (Tank.y self)) by (unfold in_grid, GRID_SIZE; simpl; lia).
  pose proof (C3_move_one_cell_iff_in_grid "UP" self Hx Hy) as H.
  split; apply H.
Defined.

Lemma shoot_ready ticks self :
  Tank.COOLDOWN_MS <= fst ticks - Tank.last_shot_time self ->
  Tank.shoot ticks self =
    Tank.set_last_shot_time (snd ticks)
      (Tank.set_bullets (Tank.bullets self ++ muzzle self :: nil) self).
Proof.
  intros H. unfold Tank.shoot, Tank.can_shoot.
  rewrite Z.geb_leb. rewrite (proj2 (Z.leb_le _ _) H). reflexivity.
Qed.

Lemma shoot_cooling ticks self :
  fst ticks - Tank.last_shot_time self < Tank.COOLDOWN_MS ->
  Tank.shoot ticks self = self.
Proof.
  intros H. unfold Tank.shoot, Tank.can_shoot.
  rewrite Z.geb_leb. rewrite (proj2 (Z.leb_gt _ _) H). reflexivity.
Qed.

(** C4. [shoot] fires exactly when the clock read by [can_shoot] is at least
    1000 ms past the last-shot time stamp: it then appends one projectile at
    the tank's column, one row towards the opponent (row [y-1] for the
    player, [y+1] for the AI), and stores the clock as the new time stamp,
    leaving position and allegiance alone; otherwise the tank is unchanged.
    With a clock that does not run backwards, two calls whose first clock
    readings are less than 1000 ms apart add at most one projectile.  The
    player at (5,9) fires a projectile at (5,8), which one [update_bullets]
    moves to (5,7). *)
Theorem C4_shoot_cooldown_gated (ticks : Z * Z) (self : Tank.t) :
  (1000 <= fst ticks - Tank.last_shot_time self ->
     let self' := Tank.shoot ticks self in
     Tank.bullets self' =
       Tank.bullets self ++
         (Tank.x self,
          if Tank.is_player self then Tank.y self - 1 else Tank.y self + 1) :: nil
     /\ Tank.last_shot_time self' = snd ticks
     /\ Tank.x self' = Tank.x self /\ Tank.y self' = Tank.y self
     /\ Tank.is_player self' = Tank.is_player self)
  /\ (fst ticks - Tank.last_shot_time self < 1000 ->
        Tank.shoot ticks self = self)
  /\ (forall ticks' : Z * Z,
        fst ticks <= snd ticks -> snd ticks <= fst ticks' ->
        fst ticks' - fst ticks < 1000 ->
        (length (Tank.bullets (Tank.shoot ticks' (Tank.shoot ticks self)))
           <= S (length (Tank.bullets self)))%nat)
  /\ (Tank.is_player self = true -> Tank.x self = 5 -> Tank.y self = 9 ->
      Tank.bullets self = nil ->
      1000 <= fst ticks - Tank.last_shot_time self ->
      Tank.bullets (Tank.shoot ticks self) = (5, 8) :: nil /\
      Tank.bullets (Tank.update_bullets (Tank.shoot ticks self)) = (5, 7) :: nil).
Proof.
  split; [|split; [|split]].
  - intros H self'. subst self'. rewrite shoot_ready by exact H.
    simpl. repeat split; reflexivity.
  - apply shoot_cooling.
  - intros ticks' H1 H2 H3.
    destruct (Z_lt_le_dec (fst ticks - Tank.last_shot_time self) 1000) as [Hc|Hr].
    + rewrite (shoot_cooling ticks self) by exact Hc.
      destruct (Z_lt_le_dec (fst ticks' - Tank.last_shot_time self) 1000)
        as [Hc'|Hr'].
      * rewrite shoot_cooling by exact Hc'. lia.
      * rewrite shoot_ready by exact Hr'. simpl.
        rewrite length_app. simpl. lia.
    + rewrite (shoot_ready ticks self) by exact Hr.
      rewrite shoot_cooling by (simpl; unfold Tank.COOLDOWN_MS; lia).
      simpl. rewrite length_app. simpl. lia.
  - intros Hp Hx Hy Hb Hr. rewrite shoot_ready by exact Hr.
    unfold Tank.update_bullets, muzzle. simpl.
    rewrite Hp, Hx, Hy, Hb. simpl. split; reflexivity.
Qed.

(** The theorem at the player's start position with the clock at 1500 ms,
    followed by a second call 300 ms later. *)
Lemma C4_shoot_witness :
  let self := Tank.init 5 9 true in
  Tank.bullets (Tank.shoot (1500, 1500) self) = (5, 8) :: nil /\
  Tank.shoot (900, 900) self = self /\
  (length (Tank.bullets
     (Tank.shoot (1800, 1800)%Z (Tank.shoot (1500, 1500)%Z self))) <= 1)%nat.
Proof.
  intros self.
  pose proof (C4_shoot_cooldown_gated (1500, 1500) self) as [_ [_ [H3 H4]]].
  pose proof (C4_shoot_cooldown_gated (900, 900) self) as [_ [H2 _]].
  split; [|split].
  - apply H4; simpl; first [reflexivity | lia].
  - apply H2. simpl. lia.
  - apply (H3 (1800, 1800)); simpl; lia.
Defined.

Lemma shift_rows_occurrences dy bs b :
  occurrences b (Tank.shift_rows dy bs) = occurrences (fst b, snd b - dy) bs.
Proof.
  unfold occurrences. induction bs as [|c rest IH]; simpl; [reflexivity|].
  destruct c as [cx cy], b as [bx by_]; simpl in *.
  destruct (Bullet_eq_dec (cx, cy + dy) (bx, by_)) as [E|N];
    destruct (Bullet_eq_dec (cx, cy) (bx, by_ - dy)) as [E'|N'];
    try (rewrite IH; reflexivity).
  - exfalso. apply N'. injection E as -> <-. f_equal. lia.
  - exfalso. apply N. injection E' as -> ->. f_equal. lia.
Qed.

Lemma keep_in_grid_occurrences bs b :
  occurrences b (Tank.keep_in_grid bs) =
    if (0 <=? snd b) && (snd b <? GRID_SIZE) then occurrences b bs else 0%nat.
Proof.
  unfold occurrences. induction bs as [|c rest IH]; simpl.
  - destruct ((0 <=? snd b) && (snd b <? GRID_SIZE)); reflexivity.
  - destruct ((0 <=? snd c) && (snd c <? GRID_SIZE)) eqn:Ec; simpl.
    + destruct (Bullet_eq_dec c b) as [->|N].
      * rewrite Ec in *. rewrite IH. reflexivity.
      * exact IH.
    + destruct (Bullet_eq_dec c b) as [->|N].
      * rewrite Ec in *. exact IH.
      * exact IH.
Qed.

Lemma in_grid_test v :
  (0 <=? v) && (v <? GRID_SIZE) = true <-> in_grid v.
Proof.
  unfold in_grid, GRID_SIZE. rewrite andb_true_iff, Z.leb_le, Z.ltb_lt. lia.
Qed.

Lemma keep_in_grid_rows bs b :
  In b (Tank.keep_in_grid bs) -> in_grid (snd b).
Proof.
  induction bs as [|c rest IH]; simpl; [tauto|].
  destruct ((0 <=? snd c) && (snd c <? GRID_SIZE)) eqn:Ec; [|exact IH].
  intros [->|H]; [apply in_grid_test; exact Ec | apply IH; exact H].
Qed.

(** C5. [update_bullets] moves every projectile one row (up, i.e. [-1], for
    the player; down, i.e. [+1], for the AI) in its column and keeps exactly
    those whose new row is on the grid: a cell with an on-grid row holds as
    many projectiles afterwards as the cell one step behind it held before,
    and a cell with an off-grid row holds none.  Nothing else in the tank
    changes. *)
Theorem C5_update_bullets_shift_then_filter (self : Tank.t) :
  let self' := Tank.update_bullets self in
  let dy := if Tank.is_player self then -1 else 1 in
  (forall c r,
     (in_grid r ->
        occurrences (c, r) (Tank.bullets self')
          = occurrences (c, r - dy) (Tank.bullets self))
     /\ (~ in_grid r -> occurrences (c, r) (Tank.bullets self') = 0%nat))
  /\ (forall c r, In (c, r) (Tank.bullets self) ->
        (in_grid (r + dy) <-> In (c, r + dy) (Tank.bullets self')))
  /\ (forall b, In b (Tank.bullets self') ->
        in_grid (snd b) /\ In (fst b, snd b - dy) (Tank.bullets self))
  /\ Tank.x self' = Tank.x self /\ Tank.y self' = Tank.y self
  /\ Tank.is_player self' = Tank.is_player self
  /\ Tank.last_shot_time self' = Tank.last_shot_time self.
Proof.
  intros self' dy.
  assert (Hocc : forall c r,
     (in_grid r -> occurrences (c, r) (Tank.bullets self')
          = occurrences (c, r - dy) (Tank.bullets self))
     /\ (~ in_grid r -> occurrences (c, r) (Tank.bullets self') = 0%nat)).
  { intros c r. subst self'. unfold Tank.update_bullets. simpl.
    rewrite keep_in_grid_occurrences. simpl.
    split; intros H.
    - rewrite (proj2 (in_grid_test r) H). apply shift_rows_occurrences.
    - destruct ((0 <=? r) && (r <? GRID_SIZE)) eqn:E; [|reflexivity].
      exfalso. apply H. apply in_grid_test. exact E. }
  split; [exact Hocc|]. split; [|split].
  - intros c r Hin. split.
    + intros Hg. destruct (Hocc c (r + dy)) as [H1 _].
      specialize (H1 Hg). replace (r + dy - dy) with r in H1 by lia.
      apply (count_occ_In Bullet_eq_dec). unfold occurrences in H1.
      rewrite H1. apply (count_occ_In Bullet_eq_dec). exact Hin.
    + intros H. apply keep_in_grid_rows in H. exact H.
  - intros [c r] Hin. simpl.
    assert (Hg : in_grid r) by (apply keep_in_grid_rows in Hin; exact Hin).
    split; [exact Hg|].
    destruct (Hocc c r) as [H1 _]. specialize (H1 Hg).
    apply (count_occ_In Bullet_eq_dec). unfold occurrences in H1.
    rewrite <- H1. apply (count_occ_In Bullet_eq_dec). exact Hin.
  - repeat split; reflexivity.
Qed.

(** The theorem at an AI tank with one projectile in the middle of the grid
    and one on the last row. *)
Lemma C5_update_bullets_witness :
  let self := Tank.set_bullets ((3, 4) :: (7, 9) :: nil) (Tank.init 5 0 false) in
  In (3, 5) (Tank.bullets (Tank.update_bullets self)) /\
  occurrences (7, 10) (Tank.bullets (Tank.update_bullets self)) = 0%nat.
Proof.
  intros self.
  pose proof (C5_update_bullets_shift_then_filter self) as [H1 [H2 _]].
  split.
  - apply (H2 3 4); [simpl; auto | unfold in_grid, GRID_SIZE; simpl; lia].
  - apply (H1 7 10). unfold in_grid, GRID_SIZE. lia.
Defined.

(** ** Python built-ins *)

Lemma Qlt_bool_iff a b : Qlt_bool a b = true <-> (a < b)%Q.
Proof.
  unfold Qlt_bool. rewrite negb_true_iff. split.
  - intros H. apply Qnot_le_lt. intros Hle.
    apply Qle_bool_iff in Hle. congruence.
  - intros H. destruct (Qle_bool b a) eqn:E; [|reflexivity].
    apply Qle_bool_iff in E. exfalso. apply (Qlt_not_le _ _ H). exact E.
Qed.

Lemma Qlt_bool_false a b : Qlt_bool a b = false <-> (b <= a)%Q.
Proof.
  unfold Qlt_bool. rewrite negb_false_iff. apply Qle_bool_iff.
Qed.

Lemma max_from_ge_best best items : (best <= max_from best items)%Q.
Proof.
  revert best. induction items as [|v rest IH]; intros best; simpl.
  - apply Qle_refl.
  - destruct (Qlt_bool best v) eqn:E.
    + apply Qlt_bool_iff in E. eapply Qle_trans; [|apply IH].
      apply Qlt_le_weak. exact E.
    + apply IH.
Qed.

Lemma max_from_upper best items v :
  In v items -> (v <= max_from best items)%Q.
Proof.
  revert best. induction items as [|w rest IH]; intros best; simpl; [tauto|].
  intros [->|Hin]; [|apply IH; exact Hin].
  destruct (Qlt_bool best v) eqn:E.
  - apply max_from_ge_best.
  - apply Qlt_bool_false in E. eapply Qle_trans; [exact E|].
    apply max_from_ge_best.
Qed.

Lemma max_from_attained best items :
  max_from best items = best \/ In (max_from best items) items.
Proof.
  revert best. induction items as [|w rest IH]; intros best; simpl; [auto|].
  destruct (Qlt_bool best w).
  - destruct (IH w) as [->|H]; auto.
  - destruct (IH best) as [->|H]; auto.
Qed.

(** [py_max] returns a member of the list that bounds all members. *)
Lemma py_max_spec items :
  items <> nil ->
  exists m, py_max items = Some m /\ In m items /\
            forall v, In v items -> (v <= m)%Q.
Proof.
  destruct items as [|v rest]; [congruence|]. intros _.
  exists (max_from v rest). split; [reflexivity|]. split.
  - destruct (max_from_attained v rest) as [->|H]; simpl; auto.
  - intros w [<-|Hin];
      [apply max_from_ge_best | apply max_from_upper; exact Hin].
Qed.

(** ** Dictionaries *)

Lemma dict_get_in_keys k d : In k (dict_keys d) -> is_Some (dict_get k d).
Proof.
  induction d as [|[k' v'] rest IH]; simpl; [tauto|].
  intros H. destruct (String.eqb_spec k' k) as [->|N]; [eexists; reflexivity|].
  apply IH. destruct H as [H|H]; [congruence|exact H].
Qed.

Lemma dict_get_values k d v : dict_get k d = Some v -> In v (dict_values d).
Proof.
  induction d as [|[k' v'] rest IH]; simpl; [discriminate|].
  destruct (k' =? k)%string.
  - intros [= ->]. auto.
  - intros H. right. apply IH. exact H.
Qed.

Lemma dict_values_get d v :
  In v (dict_values d) -> exists k, In k (dict_keys d) /\
    (List.NoDup (dict_keys d) -> dict_get k d = Some v).
Proof.
  induction d as [|[k' v'] rest IH]; simpl; [tauto|].
  intros [<-|Hin].
  - exists k'. split; [auto|]. intros _. rewrite String.eqb_refl. reflexivity.
  - destruct (IH Hin) as [k [Hk Hget]]. exists k. split; [auto|].
    intros Hnd. apply NoDup_cons_iff in Hnd as [Hni Hnd].
    destruct (String.eqb_spec k' k) as [->|N]; [tauto|]. apply Hget. exact Hnd.
Qed.

Lemma dict_set_keys k v d : In k (dict_keys d) -> dict_keys (dict_set k v d) = dict_keys d.
Proof.
  induction d as [|[k' v'] rest IH]; simpl; [tauto|].
  intros H. destruct (String.eqb_spec k' k) as [->|N]; simpl; [reflexivity|].
  f_equal. apply IH. destruct H as [H|H]; [congruence|exact H].
Qed.

Lemma dict_get_set_eq k v d : dict_get k (dict_set k v d) = Some v.
Proof.
  induction d as [|[k' v'] rest IH]; simpl.
  - rewrite String.eqb_refl. reflexivity.
  - destruct (String.eqb_spec k' k) as [->|N]; simpl.
    + rewrite String.eqb_refl. reflexivity.
    + rewrite (proj2 (String.eqb_neq _ _) N). exact IH.
Qed.

Lemma dict_get_set_ne k k0 v d :
  k0 <> k -> dict_get k0 (dict_set k v d) = dict_get k0 d.
Proof.
  intros Hne. induction d as [|[k' v'] rest IH]; simpl.
  - rewrite (proj2 (String.eqb_neq _ _)) by congruence. reflexivity.
  - destruct (String.eqb_spec k' k) as [->|N]; simpl.
    + rewrite (proj2 (String.eqb_neq _ _)) by congruence. reflexivity.
    + destruct (k' =? k0)%string; [reflexivity|exact IH].
Qed.

(** ** The Q-table *)

Lemma table_wf_empty : table_wf QLearningAgent.init.
Proof.
  intros s row H. unfold QLearningAgent.init in H.
  rewrite lookup_empty in H. discriminate.
Qed.

Lemma ensure_lookup (s s0 : QLearningAgent.State) (q : QLearningAgent.QTable) :
  QLearningAgent.ensure s q !! s0 =
    if decide (s0 = s) then Some (default QLearningAgent.zero_row (q !! s))
    else q !! s0.
Proof.
  unfold QLearningAgent.ensure. destruct (q !! s) as [row|] eqn:E.
  - destruct (decide (s0 = s)) as [->|N]; [exact E|reflexivity].
  - destruct (decide (s0 = s)) as [->|N].
    + apply lookup_insert_eq.
    + apply lookup_insert_ne. congruence.
Qed.

Lemma ensure_wf (s : QLearningAgent.State) (q : QLearningAgent.QTable) :
  table_wf q -> table_wf (QLearningAgent.ensure s q).
Proof.
  intros Hwf s0 row. rewrite ensure_lookup.
  destruct (decide (s0 = s)) as [->|N]; [|apply Hwf].
  destruct (q !! s) as [r|] eqn:E; simpl; intros [= <-].
  - apply (Hwf s). exact E.
  - reflexivity.
Qed.

Lemma NoDup_ACTIONS : List.NoDup ACTIONS.
Proof.
  unfold ACTIONS.
  repeat (apply NoDup_cons_iff; split;
          [simpl; intros H; repeat destruct H as [H|H]; try discriminate; exact H|]).
  constructor.
Qed.

Lemma zero_row_get a : In a ACTIONS -> dict_get a QLearningAgent.zero_row = Some 0%Q.
Proof.
  unfold ACTIONS. simpl.
  intros H. repeat destruct H as [<-|H]; try reflexivity. contradiction.
Qed.

(** The table after the loop [for s in (old_s, new_s)] of [learn]: the two
    keys are present, a key that was missing has the all-zero row, and no
    other key is touched. *)
Lemma lazy_rows_lookup (old_s new_s s : QLearningAgent.State)
    (q : QLearningAgent.QTable) :
  QLearningAgent.ensure new_s (QLearningAgent.ensure old_s q) !! s =
    if decide (s = old_s \/ s = new_s)
    then Some (default QLearningAgent.zero_row (q !! s))
    else q !! s.
Proof.
  rewrite ensure_lookup.
  destruct (decide (s = new_s)) as [->|Nn].
  - rewrite ensure_lookup.
    destruct (decide (new_s = old_s \/ new_s = new_s)) as [_|N]; [|tauto].
    destruct (decide (new_s = old_s)) as [->|No]; reflexivity.
  - rewrite ensure_lookup.
    destruct (decide (s = old_s)) as [->|No].
    + destruct (decide (old_s = old_s \/ old_s = new_s)) as [_|N]; [|tauto].
      reflexivity.
    + destruct (decide (s = old_s \/ s = new_s)) as [[?|?]|_]; [tauto|tauto|].
      reflexivity.
Qed.

(** What [learn] computes on a well-formed table, step by step. *)
Lemma learn_with_unfold (alpha gamma : Q) (old_s new_s : QLearningAgent.State)
    (action : string) (reward : Q) (q : QLearningAgent.QTable) :
  table_wf q -> In action ACTIONS ->
  let q0 := QLearningAgent.ensure new_s (QLearningAgent.ensure old_s q) in
  exists row nrow old_q future_q,
    q0 !! old_s = Some row /\ dict_keys row = ACTIONS /\
    dict_get action row = Some old_q /\
    q0 !! new_s = Some nrow /\ dict_keys nrow = ACTIONS /\
    py_max (dict_values nrow) = Some future_q /\
    QLearningAgent.learn_with alpha gamma old_s action reward new_s q =
      Some (<[old_s :=
                dict_set action
                  (old_q + alpha * (reward + gamma * future_q - old_q))%Q row]>
              q0).
Proof.
  intros Hwf Hact q0.
  assert (Hwf0 : table_wf q0) by (apply ensure_wf, ensure_wf, Hwf).
  destruct (q0 !! old_s) as [row|] eqn:Erow.
  2:{ exfalso. subst q0. rewrite lazy_rows_lookup in Erow.
      destruct (decide (old_s = old_s \/ old_s = new_s)); [discriminate|tauto]. }
  destruct (q0 !! new_s) as [nrow|] eqn:Enrow.
  2:{ exfalso. subst q0. rewrite lazy_rows_lookup in Enrow.
      destruct (decide (new_s = old_s \/ new_s = new_s)); [discriminate|tauto]. }
  pose proof (Hwf0 _ _ Erow) as Hk. pose proof (Hwf0 _ _ Enrow) as Hnk.
  destruct (dict_get_in_keys action row) as [old_q Hold];
    [rewrite Hk; exact Hact|].
  destruct (py_max_spec (dict_values nrow)) as [future_q [Hmax _]].
  { unfold dict_values. destruct nrow; [discriminate|]. simpl. congruence. }
  exists row, nrow, old_q, future_q.
  repeat (split; [assumption || reflexivity|]).
  unfold QLearningAgent.learn_with. fold q0.
  rewrite Erow, Hold, Enrow, Hmax. reflexivity.
Qed.

Lemma learn_with_wf (alpha gamma : Q) (old_s new_s : QLearningAgent.State)
    (action : string) (reward : Q) (q q' : QLearningAgent.QTable) :
  table_wf q -> In action ACTIONS ->
  QLearningAgent.learn_with alpha gamma old_s action reward new_s q = Some q' ->
  table_wf q'.
Proof.
  intros Hwf Hact Hl.
  destruct (learn_with_unfold alpha gamma old_s new_s action reward q Hwf Hact)
    as (row & nrow & old_q & future_q & Hrow & Hk & Hold & _ & _ & _ & Heq).
  rewrite Heq in Hl. injection Hl as <-.
  intros s r. destruct (decide (s = old_s)) as [->|N].
  - rewrite lookup_insert_eq. intros [= <-].
    rewrite dict_set_keys; [exact Hk | rewrite Hk; exact Hact].
  - rewrite lookup_insert_ne by congruence.
    apply ensure_wf, ensure_wf, Hwf.
Qed.

(** ** Binary64 comparisons *)

Lemma SFcompare_antisym x y :
  SFcompare y x = option_map CompOpp (SFcompare x y).
Proof.
  destruct x as [sx|sx| |sx mx ex], y as [sy|sy| |sy my ey]; simpl;
    try reflexivity; try (destruct sx; reflexivity);
    try (destruct sy; reflexivity);
    try (destruct sx, sy; reflexivity).
  destruct sx, sy; simpl; try reflexivity;
    rewrite (Z.compare_antisym ex ey);
    destruct (ex ?= ey)%Z; simpl; try reflexivity;
    rewrite (Pos.compare_cont_antisym mx my Eq); simpl;
    rewrite ?CompOpp_involutive; reflexivity.
Qed.

Lemma SFcompare_lt_trans x y z :
  SFcompare x y = Some Lt -> SFcompare y z = Some Lt -> SFcompare x z = Some Lt.
Proof.
  destruct x as [sx|sx| |sx mx ex], y as [sy|sy| |sy my ey],
    z as [sz|sz| |sz mz ez]; simpl; try discriminate;
    try (destruct sx; discriminate); try (destruct sy; discriminate);
    try (destruct sz; discriminate);
    try (destruct sx, sy; discriminate); try (destruct sy, sz; discriminate);
    try (destruct sx, sz; try discriminate; reflexivity);
    try (destruct sx, sy, sz; try discriminate; reflexivity).
  all: destruct sx, sy, sz; try discriminate; try reflexivity.
  all: rewrite !Pos.compare_cont_spec; simpl Pos.switch_Eq.
  all: destruct (Z.compare_spec ex ey), (Z.compare_spec ey ez),
         (Z.compare_spec ex ez); try discriminate; try reflexivity;
         try (exfalso; lia).
  all: destruct (Pos.compare_spec mx my), (Pos.compare_spec my mz),
         (Pos.compare_spec mx mz); simpl; try discriminate; try reflexivity;
         try (exfalso; lia).
Qed.

(** [<] on binary64 is irreflexive and transitive, NaN included. *)
Lemma float_ltb_irrefl (x : float) : (x <? x)%float = false.
Proof.
  rewrite FloatAxioms.ltb_spec. unfold SFltb.
  destruct (Prim2SF x) as [s|s| |s m e] eqn:E; simpl; try reflexivity;
    destruct s; try reflexivity;
    rewrite Z.compare_refl, Pos.compare_cont_refl; reflexivity.
Qed.

Lemma float_ltb_trans (x y z : float) :
  (x <? y)%float = true -> (y <? z)%float = true -> (x <? z)%float = true.
Proof.
  rewrite !FloatAxioms.ltb_spec. unfold SFltb.
  destruct (SFcompare (Prim2SF x) (Prim2SF y)) as [[| |]|] eqn:E1;
    try discriminate.
  destruct (SFcompare (Prim2SF y) (Prim2SF z)) as [[| |]|] eqn:E2;
    try discriminate.
  intros _ _. rewrite (SFcompare_lt_trans _ _ _ E1 E2). reflexivity.
Qed.

Lemma float_ltb_asym (x y : float) :
  (x <? y)%float = true -> (y <? x)%float = false.
Proof.
  intros H. destruct (y <? x)%float eqn:E; [|reflexivity].
  pose proof (float_ltb_trans x y x H E) as Hxx.
  rewrite float_ltb_irrefl in Hxx. discriminate.
Qed.

Lemma is_nan_false (x : float) : is_nan x = false -> Prim2SF x <> S754_nan.
Proof.
  unfold is_nan. rewrite FloatAxioms.eqb_spec. unfold SFeqb. intros H E. rewrite E in H.
  simpl in H. discriminate.
Qed.

(** Of two numbers neither of which is a NaN, one that is not less than
    the other is greater than or equal to it. *)
Lemma float_ltb_false_leb (x y : float) :
  is_nan x = false -> is_nan y = false ->
  (x <? y)%float = false -> (y <=? x)%float = true.
Proof.
  intros Hx Hy. apply is_nan_false in Hx. apply is_nan_false in Hy.
  rewrite FloatAxioms.ltb_spec, FloatAxioms.leb_spec. unfold SFltb, SFleb.
  rewrite (SFcompare_antisym (Prim2SF x) (Prim2SF y)).
  destruct (Prim2SF x) as [sx|sx| |sx mx ex], (Prim2SF y) as [sy|sy| |sy my ey];
    try congruence;
    destruct (SFcompare _ _) as [[| |]|] eqn:E; simpl; try discriminate;
    try reflexivity; simpl in E; try discriminate;
    try (destruct sx; discriminate); try (destruct sy; discriminate);
    try (destruct sx, sy; discriminate).
Qed.


(** ** [max] on binary64 *)

(** The running maximum ends in the first item or in an item greater than
    it, and no item is greater than where it ends. *)
Lemma max_from64_spec (items : list float) : forall best,
  let m := max_from64 best items in
  (m = best \/ (best <? m)%float = true)
  /\ (m = best \/ In m items)
  /\ forall v, In v items -> (m <? v)%float = false.
Proof.
  induction items as [|v rest IH]; intros best; simpl.
  - split; [auto|]. split; [auto|]. intros v [].
  - destruct (IH (if (best <? v)%float then v else best)) as (Hc & Hin & Hub).
    destruct (best <? v)%float eqn:E.
    + split; [|split].
      * right. destruct Hc as [->|Hc]; [exact E|].
        eapply float_ltb_trans; eassumption.
      * right. destruct Hin as [->|Hin]; auto.
      * intros w [<-|Hw]; [|apply Hub; exact Hw].
        destruct Hc as [->|Hc];
          [apply float_ltb_irrefl|apply float_ltb_asym; exact Hc].
    + split; [exact Hc|]. split; [destruct Hin; auto|].
      intros w [<-|Hw]; [|apply Hub; exact Hw].
      destruct Hc as [->|Hc]; [exact E|].
      destruct (max_from64 best rest <? v)%float eqn:Em; [|reflexivity].
      rewrite (float_ltb_trans _ _ _ Hc Em) in E. discriminate.
Qed.

(** [max] returns a member of the list that no member is greater than. *)
Lemma py_max64_spec (items : list float) :
  items <> nil ->
  exists m, py_max64 items = Some m /\ In m items
            /\ forall v, In v items -> (m <? v)%float = false.
Proof.
  destruct items as [|v rest]; [congruence|]. intros _.
  destruct (max_from64_spec rest v) as (Hc & Hin & Hub).
  exists (max_from64 v rest). split; [reflexivity|]. split.
  - destruct Hin as [->|Hin]; simpl; auto.
  - intros w [<-|Hw]; [|apply Hub; exact Hw].
    destruct Hc as [->|Hc];
      [apply float_ltb_irrefl|apply float_ltb_asym; exact Hc].
Qed.

(** ** Binary64 dictionaries *)

Lemma dict_get64_in_keys k d : In k (dict_keys64 d) -> is_Some (dict_get64 k d).
Proof.
  induction d as [|[k' v'] rest IH]; simpl; [tauto|].
  intros H. destruct (String.eqb_spec k' k) as [->|N]; [eexists; reflexivity|].
  apply IH. destruct H as [H|H]; [congruence|exact H].
Qed.

Lemma dict_get64_Some_in_keys k d v :
  dict_get64 k d = Some v -> In k (dict_keys64 d).
Proof.
  induction d as [|[k' v'] rest IH]; simpl; [discriminate|].
  destruct (String.eqb_spec k' k) as [->|N]; [auto|].
  intros H. right. apply IH. exact H.
Qed.

Lemma dict_get64_values k d v : dict_get64 k d = Some v -> In v (dict_values64 d).
Proof.
  induction d as [|[k' v'] rest IH]; simpl; [discriminate|].
  destruct (k' =? k)%string.
  - intros [= ->]. auto.
  - intros H. right. apply IH. exact H.
Qed.

Lemma dict_values64_get d v :
  List.NoDup (dict_keys64 d) -> In v (dict_values64 d) ->
  exists k, In k (dict_keys64 d) /\ dict_get64 k d = Some v.
Proof.
  induction d as [|[k' v'] rest IH]; simpl; [tauto|].
  intros Hnd [<-|Hin].
  - exists k'. split; [auto|]. rewrite String.eqb_refl. reflexivity.
  - apply NoDup_cons_iff in Hnd as [Hni Hnd].
    destruct (IH Hnd Hin) as [k [Hk Hget]]. exists k. split; [auto|].
    destruct (String.eqb_spec k' k) as [->|N]; [tauto|exact Hget].
Qed.

Lemma dict_set64_keys k v d :
  In k (dict_keys64 d) -> dict_keys64 (dict_set64 k v d) = dict_keys64 d.
Proof.
  induction d as [|[k' v'] rest IH]; simpl; [tauto|].
  intros H. destruct (String.eqb_spec k' k) as [->|N]; simpl; [reflexivity|].
  f_equal. apply IH. destruct H as [H|H]; [congruence|exact H].
Qed.

Lemma dict_get64_set_eq k v d : dict_get64 k (dict_set64 k v d) = Some v.
Proof.
  induction d as [|[k' v'] rest IH]; simpl.
  - rewrite String.eqb_refl. reflexivity.
  - destruct (String.eqb_spec k' k) as [->|N]; simpl.
    + rewrite String.eqb_refl. reflexivity.
    + rewrite (proj2 (String.eqb_neq _ _) N). exact IH.
Qed.

Lemma dict_get64_set_ne k k0 v d :
  k0 <> k -> dict_get64 k0 (dict_set64 k v d) = dict_get64 k0 d.
Proof.
  intros Hne. induction d as [|[k' v'] rest IH]; simpl.
  - rewrite (proj2 (String.eqb_neq _ _)) by congruence. reflexivity.
  - destruct (String.eqb_spec k' k) as [->|N]; simpl.
    + rewrite (proj2 (String.eqb_neq _ _)) by congruence. reflexivity.
    + destruct (k' =? k0)%string; [reflexivity|exact IH].
Qed.

Lemma dict_set64_values k v d w :
  In w (dict_values64 (dict_set64 k v d)) -> w = v \/ In w (dict_values64 d).
Proof.
  induction d as [|[k' v'] rest IH]; simpl.
  - intros [<-|[]]. auto.
  - destruct (k' =? k)%string; simpl.
    + intros [<-|H]; auto.
    + intros [<-|H]; [auto|]. destruct (IH H); auto.
Qed.

(** ** The binary64 Q-table *)


Lemma zero_row64_get a :
  In a ACTIONS -> dict_get64 a QLearningAgent64.zero_row = Some 0%float.
Proof.
  unfold ACTIONS. simpl.
  intros H. repeat destruct H as [<-|H]; try reflexivity. contradiction.
Qed.

Lemma zero_row64_values v :
  In v (dict_values64 QLearningAgent64.zero_row) -> v = 0%float.
Proof.
  simpl. intros H. repeat destruct H as [<-|H]; try reflexivity. contradiction.
Qed.

Lemma ensure64_lookup (s s0 : QLearningAgent.State)
    (q : QLearningAgent64.QTable) :
  QLearningAgent64.ensure s q !! s0 =
    if decide (s0 = s) then Some (default QLearningAgent64.zero_row (q !! s))
    else q !! s0.
Proof.
  unfold QLearningAgent64.ensure. destruct (q !! s) as [row|] eqn:E.
  - destruct (decide (s0 = s)) as [->|N]; [exact E|reflexivity].
  - destruct (decide (s0 = s)) as [->|N].
    + apply lookup_insert_eq.
    + apply lookup_insert_ne. congruence.
Qed.

(** The binary64 table after the loop [for s in (old_s, new_s)]. *)
Lemma lazy_rows64_lookup (old_s new_s s : QLearningAgent.State)
    (q : QLearningAgent64.QTable) :
  QLearningAgent64.ensure new_s (QLearningAgent64.ensure old_s q) !! s =
    if decide (s = old_s \/ s = new_s)
    then Some (default QLearningAgent64.zero_row (q !! s))
    else q !! s.
Proof.
  rewrite ensure64_lookup.
  destruct (decide (s = new_s)) as [->|Nn].
  - rewrite ensure64_lookup.
    destruct (decide (new_s = old_s \/ new_s = new_s)) as [_|N]; [|tauto].
    destruct (decide (new_s = old_s)) as [->|No]; reflexivity.
  - rewrite ensure64_lookup.
    destruct (decide (s = old_s)) as [->|No].
    + destruct (decide (old_s = old_s \/ old_s = new_s)) as [_|N]; [|tauto].
      reflexivity.
    + destruct (decide (s = old_s \/ s = new_s)) as [[?|?]|_]; [tauto|tauto|].
      reflexivity.
Qed.

Lemma lazy_rows64_wf (old_s new_s : QLearningAgent.State)
    (q : QLearningAgent64.QTable) :
  table_wf64 q ->
  table_wf64 (QLearningAgent64.ensure new_s (QLearningAgent64.ensure old_s q)).
Proof.
  intros Hwf s row. rewrite lazy_rows64_lookup.
  destruct (decide (s = old_s \/ s = new_s)) as [_|_]; [|apply Hwf].
  destruct (q !! s) as [r|] eqn:E; simpl; intros [= <-].
  - apply (Hwf s). exact E.
  - reflexivity.
Qed.

(** What the binary64 [learn] computes on a well-formed table, step by
    step. *)
Lemma learn64_unfold (alpha gamma : float) (old_s new_s : QLearningAgent.State)
    (action : string) (reward : float) (q : QLearningAgent64.QTable) :
  table_wf64 q -> In action ACTIONS ->
  let q0 := QLearningAgent64.ensure new_s (QLearningAgent64.ensure old_s q) in
  exists row nrow old_q future_q,
    q0 !! old_s = Some row /\ dict_keys64 row = ACTIONS /\
    dict_get64 action row = Some old_q /\
    q0 !! new_s = Some nrow /\ dict_keys64 nrow = ACTIONS /\
    py_max64 (dict_values64 nrow) = Some future_q /\
    QLearningAgent64.learn_with alpha gamma old_s action reward new_s q =
      Some (<[old_s :=
                dict_set64 action
                  (old_q + alpha * (reward + gamma * future_q - old_q))%float
                  row]>
              q0).
Proof.
  intros Hwf Hact q0.
  assert (Hwf0 : table_wf64 q0) by (apply lazy_rows64_wf, Hwf).
  destruct (q0 !! old_s) as [row|] eqn:Erow.
  2:{ exfalso. subst q0. rewrite lazy_rows64_lookup in Erow.
      destruct (decide (old_s = old_s \/ old_s = new_s)); [discriminate|tauto]. }
  destruct (q0 !! new_s) as [nrow|] eqn:Enrow.
  2:{ exfalso. subst q0. rewrite lazy_rows64_lookup in Enrow.
      destruct (decide (new_s = old_s \/ new_s = new_s)); [discriminate|tauto]. }
  pose proof (Hwf0 _ _ Erow) as Hk. pose proof (Hwf0 _ _ Enrow) as Hnk.
  destruct (dict_get64_in_keys action row) as [old_q Hold];
    [rewrite Hk; exact Hact|].
  destruct (py_max64_spec (dict_values64 nrow)) as [future_q [Hmax _]].
  { unfold dict_values64. destruct nrow; [discriminate|]. simpl. congruence. }
  exists row, nrow, old_q, future_q.
  repeat (split; [assumption || reflexivity|]).
  unfold QLearningAgent64.learn_with. fold q0.
  rewrite Erow, Hold, Enrow, Hmax. reflexivity.
Qed.



Lemma lazy_rows64_zero (old_s new_s : QLearningAgent.State)
    (q : QLearningAgent64.QTable) :
  table_zero64 q ->
  table_zero64 (QLearningAgent64.ensure new_s (QLearningAgent64.ensure old_s q)).
Proof.
  intros Hz s row v. rewrite lazy_rows64_lookup.
  destruct (decide (s = old_s \/ s = new_s)) as [_|_]; [|apply Hz].
  destruct (q !! s) as [r|] eqn:E; simpl; intros [= <-].
  - apply (Hz s). exact E.
  - apply zero_row64_values.
Qed.

Lemma table_wf64_singleton (s : QLearningAgent.State) (a : string) (v : float) :
  In a ACTIONS -> table_wf64 (<[s := row_with a v]> ∅).
Proof.
  intros Ha st r. destruct (decide (st = s)) as [->|N].
  - rewrite lookup_insert_eq. intros [= <-]. unfold row_with.
    apply dict_set64_keys. exact Ha.
  - rewrite lookup_insert_ne by congruence. rewrite lookup_empty. discriminate.
Qed.

(** C1. On a table whose rows have the five actions as keys, and for an
    action of the five, [learn(s, a, r, s')] succeeds.  It first makes [s]
    and [s'] present: the intermediate table [q0] has at each of the two keys
    the row the table had, or the row mapping all five actions to 0 if it had
    none, and agrees with the table at every other key.  It then reads
    [old_q = Q(s,a)] and [future_q], what [max] returns on the row of [s'] in
    [q0]: an entry of that row that no entry of the row is greater than, and
    that is greater than or equal to every entry when the row holds no NaN.
    It stores [old_q + 0.1 * (r + 0.95 * future_q - old_q)] at [Q(s,a)],
    leaving every other entry of [q0] as it is.  The numbers, the constants
    0.1 and 0.95 and the operations are those of the program: binary64, each
    operation rounded to nearest. *)
Theorem C1_learn_lazy_init_then_q_update
    (old_s new_s : QLearningAgent.State) (action : string) (reward : float)
    (q : QLearningAgent64.QTable) :
  table_wf64 q -> In action ACTIONS ->
  exists (q0 q' : QLearningAgent64.QTable) (row nrow row' : Row64)
         (old_q future_q : float),
    (* lazy initialisation *)
    (forall s, q0 !! s =
       if decide (s = old_s \/ s = new_s)
       then Some (default QLearningAgent64.zero_row (q !! s))
       else q !! s)
    /\ dict_keys64 QLearningAgent64.zero_row = ACTIONS
    /\ (forall a, In a ACTIONS ->
          dict_get64 a QLearningAgent64.zero_row = Some 0%float)
    (* the values read *)
    /\ q0 !! old_s = Some row /\ dict_get64 action row = Some old_q
    /\ q0 !! new_s = Some nrow
    /\ (exists a, In a ACTIONS /\ dict_get64 a nrow = Some future_q)
    /\ (forall a v, dict_get64 a nrow = Some v -> (future_q <? v)%float = false)
    /\ ((forall a v, dict_get64 a nrow = Some v -> is_nan v = false) ->
        forall a v, dict_get64 a nrow = Some v -> (v <=? future_q)%float = true)
    (* the update *)
    /\ QLearningAgent64.learn old_s action reward new_s q = Some q'
    /\ q' !! old_s = Some row'
    /\ dict_get64 action row' =
         Some (old_q + 0.1 * (reward + 0.95 * future_q - old_q))%float
    /\ (forall a, a <> action -> dict_get64 a row' = dict_get64 a row)
    /\ dict_keys64 row' = ACTIONS
    /\ (forall s, s <> old_s -> q' !! s = q0 !! s).
Proof.
  intros Hwf Hact.
  destruct (learn64_unfold QLearningAgent64.LEARNING_RATE
              QLearningAgent64.DISCOUNT old_s new_s action reward q Hwf Hact)
    as (row & nrow & old_q & future_q & Hrow & Hk & Hold & Hnrow & Hnk & Hmax & Heq).
  set (q0 := QLearningAgent64.ensure new_s (QLearningAgent64.ensure old_s q))
    in *.
  set (upd := (old_q + QLearningAgent64.LEARNING_RATE
                 * (reward + QLearningAgent64.DISCOUNT * future_q - old_q))%float)
    in *.
  exists q0, (<[old_s := dict_set64 action upd row]> q0), row, nrow,
    (dict_set64 action upd row), old_q, future_q.
  assert (Hne : dict_values64 nrow <> nil).
  { unfold dict_values64. destruct nrow; [discriminate|]. simpl. congruence. }
  destruct (py_max64_spec _ Hne) as (m & Hm & Hin & Hub).
  rewrite Hmax in Hm. injection Hm as <-.
  assert (Hnd : List.NoDup (dict_keys64 nrow))
    by (rewrite Hnk; apply NoDup_ACTIONS).
  destruct (dict_values64_get _ _ Hnd Hin) as (amax & Hamax & Hgmax).
  split; [intros s; apply lazy_rows64_lookup|].
  split; [reflexivity|]. split; [exact zero_row64_get|].
  split; [exact Hrow|]. split; [exact Hold|]. split; [exact Hnrow|].
  split; [exists amax; split; [rewrite <- Hnk; exact Hamax|exact Hgmax]|].
  split; [intros a v Hv; apply Hub; eapply dict_get64_values; exact Hv|].
  split.
  { intros Hnan a v Hv. apply float_ltb_false_leb.
    - exact (Hnan amax future_q Hgmax).
    - exact (Hnan a v Hv).
    - apply Hub. eapply dict_get64_values. exact Hv. }
  split; [exact Heq|].
  split; [apply lookup_insert_eq|].
  split; [apply dict_get64_set_eq|].
  split; [intros a Ha; apply dict_get64_set_ne; exact Ha|].
  split; [rewrite dict_set64_keys; [exact Hk|rewrite Hk; exact Hact]|].
  intros s Hs. apply lookup_insert_ne. congruence.
Qed.

(** The theorem at a table in which [Q(s, "DOWN")] is 1: with reward 0 and
    an unseen next state the stored value is the binary64 number nearest to
    0.9, which is not 9/10. *)
Lemma C1_learn_witness :
  exists q',
    QLearningAgent64.learn first_state "DOWN" 0%float second_state one_table
      = Some q'
    /\ q_value64 q' first_state "DOWN" = 0.90000000000000002%float.
Proof.
  assert (Hact : In "DOWN"%string ACTIONS) by (unfold ACTIONS; simpl; tauto).
  destruct (C1_learn_lazy_init_then_q_update first_state second_state "DOWN"
              0%float one_table (table_wf64_singleton _ _ _ Hact) Hact)
    as (q0 & q' & row & nrow & row' & old_q & future_q & H).
  destruct H as (_ & _ & _ & _ & _ & _ & _ & _ & _ & Hl & _).
  exists q'. split; [exact Hl|].
  vm_compute in Hl. injection Hl as <-. vm_compute. reflexivity.
Defined.






(** ** Action selection *)

Lemma dict_get_Some_in_keys k d v : dict_get k d = Some v -> In k (dict_keys d).
Proof.
  induction d as [|[k' v'] rest IH]; simpl; [discriminate|].
  destruct (String.eqb_spec k' k) as [->|N]; [auto|].
  intros H. right. apply IH. exact H.
Qed.

(** The loop of [max(d, key=d.get)] returns the running best item unless a
    later item is strictly better; of several best items it returns the one
    met first. *)
Lemma max_key_from_spec d items : forall best bestv,
  (forall k, In k items -> is_Some (dict_get k d)) ->
  exists a v,
    max_key_from d best bestv items = Some a
    /\ (bestv <= v)%Q
    /\ (forall k v', In k items -> dict_get k d = Some v' -> (v' <= v)%Q)
    /\ ((a = best /\ v = bestv)
        \/ (exists l1 l2, items = l1 ++ a :: l2 /\ dict_get a d = Some v
              /\ (bestv < v)%Q
              /\ forall k v', In k l1 -> dict_get k d = Some v' -> (v' < v)%Q)).
Proof.
  induction items as [|k rest IH]; intros best bestv Hall; simpl.
  - exists best, bestv. split; [reflexivity|]. split; [apply Qle_refl|].
    split; [intros k v' []|]. left. split; reflexivity.
  - destruct (Hall k (or_introl eq_refl)) as [vk Hk]. rewrite Hk.
    assert (Hrest : forall k0, In k0 rest -> is_Some (dict_get k0 d))
      by (intros k0 H0; apply Hall; right; exact H0).
    destruct (Qlt_bool bestv vk) eqn:E.
    + apply Qlt_bool_iff in E.
      destruct (IH k vk Hrest) as (a & v & Hres & Hge & Hub & Hfirst).
      exists a, v. split; [exact Hres|]. split; [lra|]. split.
      * intros k0 v' [<-|Hin] Hv'; [|eapply Hub; eassumption].
        rewrite Hk in Hv'. injection Hv' as <-. exact Hge.
      * right. destruct Hfirst as [[-> ->]|(l1 & l2 & -> & Ha & Hlt & Hl1)].
        -- exists nil, rest. split; [reflexivity|]. split; [exact Hk|].
           split; [exact E|]. intros k0 v' [].
        -- exists (k :: l1), l2. split; [reflexivity|]. split; [exact Ha|].
           split; [lra|]. intros k0 v' [<-|Hin] Hv'.
           ++ rewrite Hk in Hv'. injection Hv' as <-. exact Hlt.
           ++ eapply Hl1; eassumption.
    + apply Qlt_bool_false in E.
      destruct (IH best bestv Hrest) as (a & v & Hres & Hge & Hub & Hfirst).
      exists a, v. split; [exact Hres|]. split; [exact Hge|]. split.
      * intros k0 v' [<-|Hin] Hv'; [|eapply Hub; eassumption].
        rewrite Hk in Hv'. injection Hv' as <-. lra.
      * destruct Hfirst as [[-> ->]|(l1 & l2 & -> & Ha & Hlt & Hl1)].
        -- left. split; reflexivity.
        -- right. exists (k :: l1), l2. split; [reflexivity|].
           split; [exact Ha|]. split; [exact Hlt|].
           intros k0 v' [<-|Hin] Hv'.
           ++ rewrite Hk in Hv'. injection Hv' as <-. lra.
           ++ eapply Hl1; eassumption.
Qed.

Lemma py_max_key_spec (row : Row) :
  row <> nil ->
  exists a v l1 l2,
    py_max_key row = Some a
    /\ dict_get a row = Some v
    /\ dict_keys row = l1 ++ a :: l2
    /\ (forall k v', dict_get k row = Some v' -> (v' <= v)%Q)
    /\ (forall k v', In k l1 -> dict_get k row = Some v' -> (v' < v)%Q).
Proof.
  destruct row as [|[k0 v0] rest]; [congruence|]. intros _.
  assert (H0 : dict_get k0 ((k0, v0) :: rest) = Some v0)
    by (simpl; rewrite String.eqb_refl; reflexivity).
  assert (Hpm : py_max_key ((k0, v0) :: rest) =
                max_key_from ((k0, v0) :: rest) k0 v0 (dict_keys rest))
    by (unfold py_max_key; simpl; rewrite String.eqb_refl; reflexivity).
  rewrite Hpm.
  destruct (max_key_from_spec ((k0, v0) :: rest) (dict_keys rest) k0 v0)
    as (a & v & Hres & Hge & Hub & Hfirst).
  { intros k Hk. apply dict_get_in_keys. right. exact Hk. }
  assert (Hall : forall k v', dict_get k ((k0, v0) :: rest) = Some v' -> (v' <= v)%Q).
  { intros k v' Hv'. pose proof (dict_get_Some_in_keys _ _ _ Hv') as Hin.
    simpl in Hin. destruct Hin as [<-|Hin].
    - rewrite H0 in Hv'. injection Hv' as <-. exact Hge.
    - eapply Hub; eassumption. }
  destruct Hfirst as [[-> ->]|(l1 & l2 & Hk & Ha & Hlt & Hl1)].
  - exists k0, v0, nil, (dict_keys rest).
    split; [exact Hres|]. split; [exact H0|]. split; [reflexivity|].
    split; [exact Hall|]. intros k v' [].
  - exists a, v, (k0 :: l1), l2.
    split; [exact Hres|]. split; [exact Ha|].
    split; [change (dict_keys ((k0, v0) :: rest)) with (k0 :: dict_keys rest);
            rewrite Hk; reflexivity|].
    split; [exact Hall|].
    intros k v' [<-|Hin] Hv'.
    + rewrite H0 in Hv'. injection Hv' as <-. exact Hlt.
    + eapply Hl1; eassumption.
Qed.

Lemma random_choice_ACTIONS pick :
  exists a, random_choice pick ACTIONS = Some a /\ In a ACTIONS.
Proof.
  unfold random_choice.
  destruct (nth_error ACTIONS (pick mod length ACTIONS)%nat) as [a|] eqn:E.
  - exists a. split; [reflexivity|]. eapply nth_error_In. exact E.
  - exfalso. apply nth_error_None in E.
    pose proof (Nat.mod_upper_bound pick (length ACTIONS)) as Hb.
    simpl in *. lia.
Qed.



(** ** Hit detection *)

Lemma on_cell_iff (b : Bullet) tx ty :
  (fst b =? tx) && (snd b =? ty) = true <-> b = (tx, ty).
Proof.
  destruct b as [bx by_]; simpl.
  rewrite andb_true_iff, !Z.eqb_eq. split.
  - intros [-> ->]. reflexivity.
  - intros [= -> ->]. auto.
Qed.

Lemma list_remove_first (b : Bullet) pre post :
  ~ In b pre -> list_remove b (pre ++ b :: post) = Some (pre ++ post).
Proof.
  induction pre as [|c pre IH]; simpl; intros Hni.
  - rewrite !Z.eqb_refl. reflexivity.
  - destruct ((fst c =? fst b) && (snd c =? snd b)) eqn:E.
    + exfalso. apply Hni. left.
      apply on_cell_iff in E. rewrite E. destruct b; reflexivity.
    + rewrite IH by tauto. reflexivity.
Qed.

Lemma hit_scan_spec snapshot : forall pre tx ty pts,
  ~ In (tx, ty) pre ->
  exists bs' pts',
    hit_scan snapshot (pre ++ snapshot) tx ty pts = Some (bs', pts')
    /\ hit_outcome (tx, ty) (pre ++ snapshot) pts bs' pts'.
Proof.
  induction snapshot as [|b rest IH]; intros pre tx ty pts Hpre; simpl.
  - exists (pre ++ nil), pts. split; [reflexivity|]. right.
    split; [rewrite app_nil_r; exact Hpre|split; reflexivity].
  - destruct ((fst b =? tx) && (snd b =? ty)) eqn:E.
    + apply on_cell_iff in E. subst b.
      rewrite list_remove_first by exact Hpre.
      exists (pre ++ rest), (pts + 1). split; [reflexivity|]. left.
      exists pre, rest. auto.
    + assert (Hb : b <> (tx, ty)).
      { intros Hb. apply on_cell_iff in Hb. congruence. }
      destruct (IH (pre ++ b :: nil) tx ty pts) as (bs' & pts' & Hs & Ho).
      { rewrite in_app_iff. simpl. intros [H|[H|[]]]; [tauto|congruence]. }
      rewrite <- app_assoc in Hs, Ho. simpl in Hs, Ho.
      exists bs', pts'. split; [exact Hs|exact Ho].
Qed.

(** What [hit_detection] does to a game: both loops end without an error,
    and nothing but the two projectile lists and the two counters changes. *)
Lemma hit_detection_spec (g : Game) :
  exists g',
    hit_detection g = Some g'
    /\ hit_outcome (Tank.x (player g), Tank.y (player g))
         (Tank.bullets (ai g)) (ai_pts g) (Tank.bullets (ai g')) (ai_pts g')
    /\ hit_outcome (Tank.x (ai g), Tank.y (ai g))
         (Tank.bullets (player g)) (player_pts g)
         (Tank.bullets (player g')) (player_pts g')
    /\ player g' = Tank.set_bullets (Tank.bullets (player g')) (player g)
    /\ ai g' = Tank.set_bullets (Tank.bullets (ai g')) (ai g)
    /\ run g' = run g /\ q_table g' = q_table g.
Proof.
  unfold hit_detection.
  destruct (hit_scan_spec (Tank.bullets (ai g)) nil (Tank.x (player g))
              (Tank.y (player g)) (ai_pts g)) as (abs & apts & Ha & Hoa);
    [simpl; tauto|].
  simpl in Ha, Hoa. rewrite Ha. simpl.
  destruct (hit_scan_spec (Tank.bullets (player g)) nil (Tank.x (ai g))
              (Tank.y (ai g)) (player_pts g)) as (pbs & ppts & Hp & Hop);
    [simpl; tauto|].
  simpl in Hp, Hop. rewrite Hp.
  eexists. split; [reflexivity|]. simpl.
  repeat (split; [assumption || reflexivity|]). reflexivity.
Qed.

(** C6. The hit-detection step never fails.  For the AI's projectiles
    against the player's cell, and for the player's projectiles against the
    AI's cell: if a projectile of the list is on the opposing tank's cell, the
    first such projectile is taken out of the list, the rest of the list
    (later projectiles on the same cell included) stays as it is, and the
    shooter's counter goes up by exactly 1; if none is, list and counter are
    unchanged.  Positions, time stamps, the run flag and the Q-table are not
    touched.  With the AI at (5,0) and a single player projectile at (5,0),
    [player_pts] goes up by exactly 1 and the player's list becomes empty. *)
Theorem C6_hit_detection_first_match_scores_once (g : Game) :
  exists g',
    hit_detection g = Some g'
    /\ hit_outcome (Tank.x (player g), Tank.y (player g))
         (Tank.bullets (ai g)) (ai_pts g) (Tank.bullets (ai g')) (ai_pts g')
    /\ hit_outcome (Tank.x (ai g), Tank.y (ai g))
         (Tank.bullets (player g)) (player_pts g)
         (Tank.bullets (player g')) (player_pts g')
    /\ (ai_pts g <= ai_pts g' <= ai_pts g + 1)
    /\ (player_pts g <= player_pts g' <= player_pts g + 1)
    /\ player g' = Tank.set_bullets (Tank.bullets (player g')) (player g)
    /\ ai g' = Tank.set_bullets (Tank.bullets (ai g')) (ai g)
    /\ run g' = run g /\ q_table g' = q_table g
    /\ (Tank.x (ai g) = 5 -> Tank.y (ai g) = 0 ->
        Tank.bullets (player g) = (5, 0) :: nil ->
        player_pts g' = player_pts g + 1 /\ Tank.bullets (player g') = nil).
Proof.
  destruct (hit_detection_spec g)
    as (g' & Hd & Hoa & Hop & Hp & Ha & Hr & Hq).
  exists g'. split; [exact Hd|]. split; [exact Hoa|]. split; [exact Hop|].
  split; [destruct Hoa as [(? & ? & _ & _ & _ & ->)|(_ & _ & ->)]; lia|].
  split; [destruct Hop as [(? & ? & _ & _ & _ & ->)|(_ & _ & ->)]; lia|].
  repeat (split; [assumption|]).
  intros Hx Hy Hb. rewrite Hx, Hy, Hb in Hop.
  destruct Hop as [(l1 & l2 & Hbs & Hni & -> & ->)|(Hni & _)].
  - destruct l1 as [|c l1]; simpl in Hbs.
    + injection Hbs as <-. split; reflexivity.
    + injection Hbs as <- Hbs. destruct l1; discriminate Hbs.
  - exfalso. apply Hni. left. reflexivity.
Qed.

(** The theorem at the spec's example: the AI at (5,0) and one player
    projectile on that cell. *)
Lemma C6_hit_detection_witness :
  let g := set_player (Tank.set_bullets ((5, 0) :: nil) (Tank.init 5 9 true))
             main_init in
  exists g', hit_detection g = Some g' /\ player_pts g' = 1
             /\ Tank.bullets (player g') = nil.
Proof.
  intros g.
  destruct (C6_hit_detection_first_match_scores_once g)
    as (g' & Hd & _ & _ & _ & _ & _ & _ & _ & _ & Hex).
  exists g'. split; [exact Hd|].
  destruct Hex as [Hpts Hbs]; try reflexivity.
  split; [rewrite Hpts; reflexivity | exact Hbs].
Defined.

(** ** The frame *)

Lemma choose_action_total (rnd : Q) (pick : nat) (state : QLearningAgent.State)
    (q : QLearningAgent.QTable) :
  table_wf q ->
  exists a, QLearningAgent.choose_action rnd pick state q = Some (a, q)
            /\ In a ACTIONS.
Proof.
  intros Hwf. unfold QLearningAgent.choose_action.
  destruct (Qlt_bool rnd EPSILON || negb (bool_decide (is_Some (q !! state))))
    eqn:E.
  - destruct (random_choice_ACTIONS pick) as (a & Hc & Hin).
    exists a. rewrite Hc. auto.
  - apply orb_false_iff in E as [_ E]. apply negb_false_iff in E.
    apply bool_decide_eq_true_1 in E. destruct E as [row Hrow]. rewrite Hrow.
    pose proof (Hwf _ _ Hrow) as Hk.
    destruct (py_max_key_spec row) as (a & v & l1 & l2 & Hm & Ha & _).
    { intros ->. discriminate Hk. }
    exists a. rewrite Hm. split; [reflexivity|].
    rewrite <- Hk. eapply dict_get_Some_in_keys. exact Ha.
Qed.

Lemma ai_decision_spec (e : Env) (g : Game) :
  table_wf (q_table g) ->
  exists action,
    In action ACTIONS /\
    ai_decision e g =
      Some (QLearningAgent.get_state (ai g) (player g), action,
            set_ai (ai_act e action (ai g)) g).
Proof.
  intros Hwf. unfold ai_decision.
  destruct (choose_action_total (rnd e) (pick e)
              (QLearningAgent.get_state (ai g) (player g)) (q_table g) Hwf)
    as (a & Hc & Hin).
  exists a. split; [exact Hin|]. rewrite Hc. destruct g; reflexivity.
Qed.

Lemma learn_phase_spec (state : QLearningAgent.State) (action : string)
    (g : Game) :
  table_wf (q_table g) -> In action ACTIONS ->
  exists g', learn_phase state action g = Some g'
    /\ table_wf (q_table g')
    /\ player g' = player g /\ ai g' = ai g
    /\ player_pts g' = player_pts g /\ ai_pts g' = ai_pts g
    /\ run g' = run g.
Proof.
  intros Hwf Hact. unfold learn_phase, QLearningAgent.learn.
  destruct (learn_with_unfold LEARNING_RATE DISCOUNT state
              (QLearningAgent.get_state (ai g) (player g)) action 0%Q
              (q_table g) Hwf Hact)
    as (row & nrow & old_q & future_q & _ & _ & _ & _ & _ & _ & Heq).
  pose proof (learn_with_wf _ _ _ _ _ _ _ _ Hwf Hact Heq) as Hwf'.
  rewrite Heq. eexists. split; [reflexivity|]. simpl.
  repeat (split; [assumption || reflexivity|]). reflexivity.
Qed.

(** The frame, phase by phase, on a well-formed table: no phase fails. *)
Lemma frame_steps (e : Env) (g : Game) :
  table_wf (q_table g) ->
  let g0 := player_input e (handle_events e g) in
  exists action g2 g3,
    In action ACTIONS
    /\ before_hits e g =
         Some (QLearningAgent.get_state (ai g0) (player g0), action,
               update_phase (set_ai (ai_act e action (ai g0)) g0))
    /\ hit_detection (update_phase (set_ai (ai_act e action (ai g0)) g0))
         = Some g2
    /\ learn_phase (QLearningAgent.get_state (ai g0) (player g0)) action g2
         = Some g3
    /\ frame e g = Some (win_check g3)
    /\ table_wf (q_table g3)
    /\ player g3 = player g2 /\ ai g3 = ai g2
    /\ player_pts g3 = player_pts g2 /\ ai_pts g3 = ai_pts g2
    /\ run g3 = run g2.
Proof.
  intros Hwf g0.
  assert (Hwf0 : table_wf (q_table g0)).
  { subst g0. unfold player_input, handle_events.
    destruct (quit e); simpl; exact Hwf. }
  destruct (ai_decision_spec e g0 Hwf0) as (action & Hact & Hai).
  set (g1 := update_phase (set_ai (ai_act e action (ai g0)) g0)).
  destruct (hit_detection_spec g1) as (g2 & Hh & _ & _ & _ & _ & _ & Hq2).
  assert (Hwf2 : table_wf (q_table g2)) by (rewrite Hq2; exact Hwf0).
  destruct (learn_phase_spec (QLearningAgent.get_state (ai g0) (player g0))
              action g2 Hwf2 Hact) as (g3 & Hl & Hwf3 & Hrest).
  exists action, g2, g3.
  assert (Hb : before_hits e g =
            Some (QLearningAgent.get_state (ai g0) (player g0), action, g1)).
  { unfold before_hits. fold g0. rewrite Hai. reflexivity. }
  split; [exact Hact|]. split; [exact Hb|]. split; [exact Hh|].
  split; [exact Hl|]. split; [|split; [exact Hwf3|exact Hrest]].
  unfold frame. rewrite Hb, Hh, Hl. reflexivity.
Qed.

Lemma win_check_spec (g : Game) :
  player (win_check g) = player g /\ ai (win_check g) = ai g
  /\ player_pts (win_check g) = player_pts g
  /\ ai_pts (win_check g) = ai_pts g
  /\ q_table (win_check g) = q_table g
  /\ (WIN_SCORE <= player_pts g \/ WIN_SCORE <= ai_pts g ->
      run (win_check g) = false)
  /\ (player_pts g < WIN_SCORE -> ai_pts g < WIN_SCORE ->
      run (win_check g) = run g).
Proof.
  unfold win_check. rewrite !Z.geb_leb.
  destruct (Z.leb_spec WIN_SCORE (player_pts g));
    destruct (Z.leb_spec WIN_SCORE (ai_pts g)); simpl;
    do 5 (split; [reflexivity|]); split; intros;
    first [reflexivity | exfalso; lia].
Qed.

Lemma frame_inv (e : Env) (g : Game) :
  table_wf (q_table g) -> exists g', frame e g = Some g' /\ loop_inv g'.
Proof.
  intros Hwf.
  destruct (frame_steps e g Hwf) as (action & g2 & g3 & _ & _ & _ & _ & Hf & Hwf3 & _).
  exists (win_check g3). split; [exact Hf|].
  destruct (win_check_spec g3) as (_ & _ & Hp & Ha & Hq & Hwin & _).
  split; [rewrite Hq; exact Hwf3|]. rewrite Hp, Ha. exact Hwin.
Qed.

Lemma main_loop_stopped (envs : list Env) (g : Game) :
  run g = false -> main_loop envs g = Some (g, 0%nat).
Proof. intros H. destruct envs; simpl; [|rewrite H]; reflexivity. Qed.

Lemma main_loop_inv (envs : list Env) : forall g,
  loop_inv g ->
  exists g' n,
    main_loop envs g = Some (g', n) /\ loop_inv g' /\ (n <= length envs)%nat
    /\ (run g' = false ->
        forall more, main_loop (envs ++ more) g = Some (g', n)).
Proof.
  induction envs as [|e rest IH]; intros g Hinv; simpl.
  - exists g, 0%nat. split; [reflexivity|]. split; [exact Hinv|].
    split; [lia|]. intros Hr more. apply main_loop_stopped. exact Hr.
  - destruct (run g) eqn:Hrun.
    + destruct (frame_inv e g (proj1 Hinv)) as (g1 & Hf & Hinv1).
      rewrite Hf.
      destruct (IH g1 Hinv1) as (g' & n & Hm & Hinv' & Hn & Hstop).
      rewrite Hm. exists g', (S n). split; [reflexivity|].
      split; [exact Hinv'|]. split; [lia|].
      intros Hr more. rewrite (Hstop Hr more). reflexivity.
    + exists g, 0%nat. split; [reflexivity|]. split; [exact Hinv|].
      split; [lia|]. intros _ more. reflexivity.
Qed.

Lemma loop_inv_main_init : loop_inv main_init.
Proof.
  split; [apply table_wf_empty|]. unfold WIN_SCORE. simpl. lia.
Qed.

(** C8. Both counters start at 0 and the run flag at true.  A frame run on
    a well-formed table never fails, and if at its end either counter is at
    the win threshold 10 or above, the run flag is false and the loop runs no
    frame after this one.  For a whole game: whatever inputs the frames read,
    the loop started in [main]'s initial state ends without an error, and once
    it has ended with a counter at the threshold, the run flag is false and
    any further input is left unread. *)
Theorem C8_win_threshold_ends_loop :
  player_pts main_init = 0 /\ ai_pts main_init = 0 /\ run main_init = true
  /\ WIN_SCORE = 10
  /\ (forall e g, table_wf (q_table g) ->
        exists g', frame e g = Some g'
          /\ (WIN_SCORE <= player_pts g' \/ WIN_SCORE <= ai_pts g' ->
              run g' = false
              /\ (run g = true ->
                  forall rest, main_loop (e :: rest) g = Some (g', 1%nat))))
  /\ (forall envs, exists g n,
        main_loop envs main_init = Some (g, n) /\ (n <= length envs)%nat
        /\ (WIN_SCORE <= player_pts g \/ WIN_SCORE <= ai_pts g ->
            run g = false
            /\ forall more, main_loop (envs ++ more) main_init = Some (g, n))).
Proof.
  split; [reflexivity|]. split; [reflexivity|]. split; [reflexivity|].
  split; [reflexivity|]. split.
  - intros e g Hwf. destruct (frame_inv e g Hwf) as (g' & Hf & Hwf' & Hwin).
    exists g'. split; [exact Hf|]. intros Hs. specialize (Hwin Hs).
    split; [exact Hwin|]. intros Hrun rest. simpl. rewrite Hrun, Hf.
    rewrite (main_loop_stopped rest g' Hwin). reflexivity.
  - intros envs.
    destruct (main_loop_inv envs main_init loop_inv_main_init)
      as (g & n & Hm & [Hwf Hwin] & Hn & Hstop).
    exists g, n. split; [exact Hm|]. split; [exact Hn|]. intros Hs.
    split; [exact (Hwin Hs)|]. apply Hstop. exact (Hwin Hs).
Qed.

(** The theorem at a frame that takes the player from 9 to 10 points: the
    loop runs this one frame and stops, although more input is waiting. *)
Lemma C8_win_threshold_witness :
  exists g', main_loop (idle_env :: idle_env :: nil) last_frame_game
               = Some (g', 1%nat)
             /\ run g' = false.
Proof.
  destruct C8_win_threshold_ends_loop as (_ & _ & _ & _ & Hframe & _).
  destruct (Hframe idle_env last_frame_game table_wf_empty)
    as (g' & Hf & Hwin).
  assert (Hs : WIN_SCORE <= player_pts g' \/ WIN_SCORE <= ai_pts g').
  { left. vm_compute in Hf. injection Hf as <-. vm_compute. discriminate. }
  destruct (Hwin Hs) as [Hr Hl].
  exists g'. split; [apply Hl; reflexivity|exact Hr].
Defined.

(** ** Projectiles spawned off the grid *)

Lemma shift_rows_app dy bs1 bs2 :
  Tank.shift_rows dy (bs1 ++ bs2) = Tank.shift_rows dy bs1 ++ Tank.shift_rows dy bs2.
Proof. induction bs1 as [|b bs1 IH]; simpl; [|rewrite IH]; reflexivity. Qed.

Lemma keep_in_grid_app bs1 bs2 :
  Tank.keep_in_grid (bs1 ++ bs2) = Tank.keep_in_grid bs1 ++ Tank.keep_in_grid bs2.
Proof.
  induction bs1 as [|b bs1 IH]; simpl; [reflexivity|].
  destruct ((0 <=? snd b) && (snd b <? GRID_SIZE)); rewrite IH; reflexivity.
Qed.

Lemma update_bullets_rows self : rows_in_grid (Tank.bullets (Tank.update_bullets self)).
Proof. intros b Hb. simpl in Hb. eapply keep_in_grid_rows. exact Hb. Qed.

Lemma update_phase_rows g :
  rows_in_grid (Tank.bullets (player (update_phase g))) /\
  rows_in_grid (Tank.bullets (ai (update_phase g))).
Proof. split; apply update_bullets_rows. Qed.

Lemma far_row_shot_dropped ticks self :
  on_far_row self ->
  Tank.bullets (Tank.update_bullets (Tank.shoot ticks self)) =
  Tank.bullets (Tank.update_bullets self).
Proof.
  intros Hfar.
  destruct (Z_lt_le_dec (fst ticks - Tank.last_shot_time self) Tank.COOLDOWN_MS)
    as [Hc|Hr].
  - rewrite shoot_cooling by exact Hc. reflexivity.
  - rewrite shoot_ready by exact Hr. unfold Tank.update_bullets, muzzle. simpl.
    rewrite shift_rows_app, keep_in_grid_app.
    destruct Hfar as [[-> ->]|[-> ->]]; simpl; apply app_nil_r.
Qed.

(** C9. A shot fired from the far row (the player on row 0, the AI on row
    [GRID_SIZE-1]) spawns a projectile on row -1, respectively [GRID_SIZE],
    which is off the grid.  The tank's next [update_bullets] drops it: the
    list after the update is the list an update without the shot would have
    given.  In the frame, the game handed to hit detection has been through
    [update_bullets] for both tanks, so every projectile of either list has
    its row in [0, GRID_SIZE-1]; a counter only goes up for a projectile of
    those lists that is on the opposing tank's cell, hence on the grid, and
    the lists still lie on the grid when the frame ends. *)
Theorem C9_off_grid_shot_never_hits :
  (forall ticks self,
     on_far_row self -> 1000 <= fst ticks - Tank.last_shot_time self ->
     exists r,
       Tank.bullets (Tank.shoot ticks self) =
         Tank.bullets self ++ (Tank.x self, r) :: nil
       /\ r = (if Tank.is_player self then -1 else GRID_SIZE)
       /\ ~ in_grid r)
  /\ (forall ticks self,
        on_far_row self ->
        Tank.bullets (Tank.update_bullets (Tank.shoot ticks self)) =
        Tank.bullets (Tank.update_bullets self))
  /\ (forall e g,
        table_wf (q_table g) ->
        exists state action g1 g2 g',
          before_hits e g = Some (state, action, g1)
          /\ hit_detection g1 = Some g2
          /\ frame e g = Some g'
          /\ rows_in_grid (Tank.bullets (player g1))
          /\ rows_in_grid (Tank.bullets (ai g1))
          /\ (ai_pts g2 <> ai_pts g1 ->
              In (Tank.x (player g1), Tank.y (player g1)) (Tank.bullets (ai g1))
              /\ in_grid (Tank.y (player g1)))
          /\ (player_pts g2 <> player_pts g1 ->
              In (Tank.x (ai g1), Tank.y (ai g1)) (Tank.bullets (player g1))
              /\ in_grid (Tank.y (ai g1)))
          /\ rows_in_grid (Tank.bullets (player g'))
          /\ rows_in_grid (Tank.bullets (ai g'))).
Proof.
  split; [|split].
  - intros ticks self Hfar Hr.
    exists (if Tank.is_player self then -1 else GRID_SIZE).
    rewrite shoot_ready by exact Hr. simpl. unfold muzzle.
    destruct Hfar as [[-> ->]|[-> ->]]; simpl;
      (split; [reflexivity|]); (split; [reflexivity|]);
      unfold in_grid, GRID_SIZE; lia.
  - intros ticks self Hfar. apply far_row_shot_dropped. exact Hfar.
  - intros e g Hwf.
    destruct (frame_steps e g Hwf)
      as (action & g2 & g3 & _ & Hb & Hh & Hl & Hf & _ & Hp3 & Ha3 & _).
    set (g0 := player_input e (handle_events e g)) in *.
    set (g1 := update_phase (set_ai (ai_act e action (ai g0)) g0)) in *.
    destruct (update_phase_rows (set_ai (ai_act e action (ai g0)) g0))
      as [Hrp Hra]. fold g1 in Hrp, Hra.
    destruct (hit_detection_spec g1) as (g2' & Hh' & Hoa & Hop & _).
    rewrite Hh in Hh'. injection Hh' as <-.
    exists (QLearningAgent.get_state (ai g0) (player g0)), action, g1, g2,
      (win_check g3).
    split; [exact Hb|]. split; [exact Hh|]. split; [exact Hf|].
    split; [exact Hrp|]. split; [exact Hra|].
    assert (Hin : forall target bs pts bs' pts',
              hit_outcome target bs pts bs' pts' -> rows_in_grid bs ->
              (pts' <> pts -> In target bs /\ in_grid (snd target))
              /\ rows_in_grid bs').
    { intros target bs pts bs' pts' Ho Hrows.
      destruct Ho as [(l1 & l2 & -> & _ & -> & ->)|(_ & -> & ->)].
      - split.
        + intros _. assert (In target (l1 ++ target :: l2))
            by (apply in_app_iff; right; left; reflexivity).
          split; [assumption|]. apply Hrows. assumption.
        + intros b Hb'. apply Hrows. apply in_app_iff.
          apply in_app_iff in Hb' as [Hb'|Hb']; [left|right; right]; exact Hb'.
      - split; [congruence|exact Hrows]. }
    destruct (Hin _ _ _ _ _ Hoa Hra) as [Hhit_a Hrows_a].
    destruct (Hin _ _ _ _ _ Hop Hrp) as [Hhit_p Hrows_p].
    split; [exact Hhit_a|]. split; [exact Hhit_p|].
    destruct (win_check_spec g3) as (Hwp & Hwa & _).
    rewrite Hwp, Hwa, Hp3, Ha3. split; assumption.
Qed.

(** The theorem at the player standing on row 0 with the cooldown over, and
    at the first frame of a game. *)
Lemma C9_off_grid_shot_witness :
  let self := Tank.init 5 0 true in
  Tank.bullets (Tank.shoot (1500, 1500) self) = (5, -1) :: nil
  /\ Tank.bullets (Tank.update_bullets (Tank.shoot (1500, 1500) self)) = nil
  /\ exists g', frame idle_env main_init = Some g'.
Proof.
  intros self.
  destruct C9_off_grid_shot_never_hits as (Hspawn & Hdrop & Hframe).
  assert (Hfar : on_far_row self) by (left; split; reflexivity).
  split; [|split].
  - destruct (Hspawn (1500, 1500) self Hfar) as (r & Hb & -> & _);
      [simpl; lia|exact Hb].
  - rewrite (Hdrop (1500, 1500) self Hfar). reflexivity.
  - destruct (Hframe idle_env main_init table_wf_empty)
      as (_ & _ & _ & _ & g' & _ & _ & Hf & _).
    exists g'. exact Hf.
Defined.

(** ** The first shot *)

Lemma quiet_move direction self : quiet self -> quiet (Tank.move direction self).
Proof.
  intros [Hb Hl]. destruct (move_other_fields direction self) as (_ & Hb' & Hl').
  split; congruence.
Qed.

Lemma quiet_shoot ticks self :
  quiet self -> fst ticks < Tank.COOLDOWN_MS -> Tank.shoot ticks self = self.
Proof. intros [_ Hl] Ht. apply shoot_cooling. rewrite Hl. lia. Qed.

Lemma quiet_update self : quiet self -> quiet (Tank.update_bullets self).
Proof.
  intros [Hb Hl]. split; simpl; [rewrite Hb; reflexivity|exact Hl].
Qed.

Lemma quiet_frame (e : Env) (g : Game) :
  table_wf (q_table g) -> early e -> quiet (player g) -> quiet (ai g) ->
  exists g', frame e g = Some g' /\ loop_inv g'
             /\ quiet (player g') /\ quiet (ai g').
Proof.
  intros Hwf [Hep Hea] Hqp Hqa.
  destruct (frame_steps e g Hwf)
    as (action & g2 & g3 & _ & _ & Hh & _ & Hf & _ & Hp3 & Ha3 & _).
  set (g0 := player_input e (handle_events e g)) in *.
  set (g1 := update_phase (set_ai (ai_act e action (ai g0)) g0)) in *.
  assert (Hq0 : quiet (player g0) /\ ai g0 = ai g).
  { subst g0. unfold player_input, handle_events.
    destruct (quit e); simpl;
      (split; [|reflexivity]);
      (destruct (K_SPACE e);
       [rewrite quiet_shoot by
          (try exact Hep;
           destruct (K_LEFT e), (K_RIGHT e), (K_UP e), (K_DOWN e);
           repeat apply quiet_move; exact Hqp)|]);
      destruct (K_LEFT e), (K_RIGHT e), (K_UP e), (K_DOWN e);
      repeat apply quiet_move; exact Hqp. }
  destruct Hq0 as [Hqp0 Hai0].
  assert (Hq1 : quiet (player g1) /\ quiet (ai g1)).
  { assert (Hp1 : player g1 = Tank.update_bullets (player g0)) by reflexivity.
    assert (Ha1 : ai g1 = Tank.update_bullets (ai_act e action (ai g0)))
      by reflexivity.
    rewrite Hp1, Ha1, Hai0. split.
    - apply quiet_update. exact Hqp0.
    - apply quiet_update. unfold ai_act.
      destruct (action =? "SHOOT")%string.
      + rewrite quiet_shoot; [| |exact Hea];
          destruct (is_move action); try apply quiet_move; exact Hqa.
      + destruct (is_move action); try apply quiet_move; exact Hqa. }
  destruct Hq1 as [Hqp1 Hqa1].
  destruct (hit_detection_spec g1) as (g2' & Hh' & Hoa & Hop & Hp2 & Ha2 & _).
  rewrite Hh in Hh'. injection Hh' as <-.
  assert (Hnil : forall target pts bs' pts',
            hit_outcome target nil pts bs' pts' -> bs' = nil).
  { intros target pts bs' pts' [(l1 & l2 & Hbs & _)|(_ & -> & _)];
      [destruct l1; discriminate Hbs|reflexivity]. }
  rewrite (proj1 Hqa1) in Hoa. rewrite (proj1 Hqp1) in Hop.
  apply Hnil in Hoa. apply Hnil in Hop.
  destruct (frame_inv e g Hwf) as (g' & Hf' & Hinv).
  rewrite Hf in Hf'. injection Hf' as <-.
  exists (win_check g3). split; [exact Hf|]. split; [exact Hinv|].
  destruct (win_check_spec g3) as (Hwp & Hwa & _).
  rewrite Hwp, Hwa, Hp3, Ha3, Hp2, Ha2, Hoa, Hop.
  split; split; simpl; first [reflexivity | apply Hqp1 | apply Hqa1].
Qed.

Lemma quiet_main_loop (envs : list Env) : forall g,
  loop_inv g -> Forall early envs -> quiet (player g) -> quiet (ai g) ->
  exists g' n, main_loop envs g = Some (g', n)
               /\ quiet (player g') /\ quiet (ai g').
Proof.
  induction envs as [|e rest IH]; intros g Hinv Hearly Hqp Hqa; simpl.
  - exists g, 0%nat. auto.
  - destruct (run g); [|exists g, 0%nat; auto].
    apply Forall_cons in Hearly as [He Hrest].
    destruct (quiet_frame e g (proj1 Hinv) He Hqp Hqa)
      as (g1 & Hf & Hinv1 & Hqp1 & Hqa1).
    rewrite Hf.
    destruct (IH g1 Hinv1 Hrest Hqp1 Hqa1) as (g' & n & Hm & Hq).
    rewrite Hm. exists g', (S n). split; [reflexivity|exact Hq].
Qed.

(** C10. A new tank has the last-shot time stamp 0.  For a tank whose time
    stamp is still 0 and any clock reading below 1000 ms, [can_shoot] is
    false and [shoot] returns the tank unchanged.  In a game, as long as every
    shot attempt reads a clock below 1000 ms, neither tank ever has a
    projectile and both time stamps stay 0, whatever keys are pressed and
    whatever the agent chooses. *)
Theorem C10_no_first_shot_before_cooldown :
  (forall x0 y0 p, Tank.last_shot_time (Tank.init x0 y0 p) = 0)
  /\ (forall (ticks : Z * Z) self,
        Tank.last_shot_time self = 0 -> fst ticks < 1000 ->
        Tank.can_shoot (fst ticks) self = false
        /\ Tank.shoot ticks self = self)
  /\ (forall envs,
        Forall (fun e => fst (player_ticks e) < 1000 /\ fst (ai_ticks e) < 1000)
          envs ->
        exists g n,
          main_loop envs main_init = Some (g, n)
          /\ Tank.bullets (player g) = nil /\ Tank.bullets (ai g) = nil
          /\ Tank.last_shot_time (player g) = 0
          /\ Tank.last_shot_time (ai g) = 0).
Proof.
  split; [reflexivity|]. split.
  - intros ticks self Hl Ht. split.
    + unfold Tank.can_shoot, Tank.COOLDOWN_MS. rewrite Hl, Z.geb_leb.
      apply Z.leb_gt. lia.
    + apply shoot_cooling. unfold Tank.COOLDOWN_MS. lia.
  - intros envs Hearly.
    destruct (quiet_main_loop envs main_init loop_inv_main_init Hearly)
      as (g & n & Hm & [Hpb Hpl] & [Hab Hal]);
      [split; reflexivity|split; reflexivity|].
    exists g, n. auto.
Qed.

(** The theorem at the AI's tank with the clock at 999 ms, and at a frame in
    which the player holds the space bar at 400 ms. *)
Lemma C10_no_first_shot_witness :
  Tank.shoot (999, 999) (Tank.init 5 0 false) = Tank.init 5 0 false
  /\ exists g n,
       main_loop
         ({| quit := false; K_LEFT := false; K_RIGHT := false; K_UP := false;
             K_DOWN := false; K_SPACE := true; player_ticks := (400, 400);
             ai_ticks := (400, 401); rnd := (1 # 2)%Q; pick := 4%nat |} :: nil)
         main_init = Some (g, n)
       /\ Tank.bullets (player g) = nil.
Proof.
  destruct C10_no_first_shot_before_cooldown as (_ & Hshoot & Hloop).
  split.
  - apply (Hshoot (999, 999)); [reflexivity|simpl; lia].
  - edestruct Hloop as (g & n & Hm & Hb & _);
      [|exists g, n; split; [exact Hm|exact Hb]].
    apply Forall_cons. split; [simpl; lia|apply Forall_nil; exact I].
Defined.

(** * Further properties *)

(** ** Positions, projectiles and scores during a game *)

Lemma keep_in_grid_In bs b :
  In b (Tank.keep_in_grid bs) -> In b bs.
Proof.
  induction bs as [|c rest IH]; simpl; [tauto|].
  destruct ((0 <=? snd c) && (snd c <? GRID_SIZE)); simpl; tauto.
Qed.

Lemma shift_rows_In dy bs b :
  In b (Tank.shift_rows dy bs) ->
  exists b0, In b0 bs /\ b = (fst b0, snd b0 + dy).
Proof.
  induction bs as [|c rest IH]; simpl; [tauto|].
  intros [<-|H].
  - exists c. auto.
  - destruct (IH H) as (b0 & Hin & Hb). exists b0. auto.
Qed.

Lemma update_bullets_cols self :
  cols_in_grid (Tank.bullets self) ->
  cols_in_grid (Tank.bullets (Tank.update_bullets self)).
Proof.
  intros Hc b Hb. simpl in Hb. apply keep_in_grid_In in Hb.
  apply shift_rows_In in Hb as (b0 & Hin & ->). simpl. apply Hc. exact Hin.
Qed.

(** A property of tanks that [move] and [shoot] keep is kept by the
    player-input phase and by the AI's action. *)
Lemma player_input_closed (P : Tank.t -> Prop) (e : Env) (g : Game) :
  (forall d t, P t -> P (Tank.move d t)) ->
  (forall ticks t, P t -> P (Tank.shoot ticks t)) ->
  P (player g) -> P (player (player_input e g)).
Proof.
  intros Hm Hs Hp. unfold player_input. simpl.
  destruct (K_SPACE e); [apply Hs|];
    destruct (K_DOWN e), (K_UP e), (K_RIGHT e), (K_LEFT e);
    repeat apply Hm; exact Hp.
Qed.

Lemma ai_act_closed (P : Tank.t -> Prop) (e : Env) (action : string)
    (a : Tank.t) :
  (forall d t, P t -> P (Tank.move d t)) ->
  (forall ticks t, P t -> P (Tank.shoot ticks t)) ->
  P a -> P (ai_act e action a).
Proof.
  intros Hm Hs Hp. unfold ai_act.
  destruct (action =? "SHOOT")%string; [apply Hs|];
    destruct (is_move action); try apply Hm; exact Hp.
Qed.

Lemma handle_events_fields (e : Env) (g : Game) :
  player (handle_events e g) = player g /\ ai (handle_events e g) = ai g
  /\ player_pts (handle_events e g) = player_pts g
  /\ ai_pts (handle_events e g) = ai_pts g
  /\ q_table (handle_events e g) = q_table g
  /\ run (handle_events e g) = (if quit e then false else run g).
Proof. unfold handle_events. destruct (quit e); simpl; auto 10. Qed.

Lemma armed_ok_move d t : armed_ok t -> armed_ok (Tank.move d t).
Proof.
  intros [[Hx Hy] Hc]. destruct (move_other_fields d t) as (_ & Hb & _).
  split; [apply move_in_grid; assumption|]. rewrite Hb. exact Hc.
Qed.

Lemma armed_ok_shoot ticks t : armed_ok t -> armed_ok (Tank.shoot ticks t).
Proof.
  intros [[Hx Hy] Hc].
  destruct (Z_lt_le_dec (fst ticks - Tank.last_shot_time t) Tank.COOLDOWN_MS)
    as [Hcool|Hready].
  - rewrite shoot_cooling by exact Hcool. split; [split|]; assumption.
  - rewrite shoot_ready by exact Hready. split; [split; assumption|].
    simpl. intros b Hb. apply in_app_iff in Hb as [Hb|[<-|[]]].
    + apply Hc. exact Hb.
    + exact Hx.
Qed.

Lemma armed_ok_update t : armed_ok t -> tank_ok (Tank.update_bullets t).
Proof.
  intros [Hpos Hc]. split; [exact Hpos|]. split.
  - apply update_bullets_cols. exact Hc.
  - apply update_bullets_rows.
Qed.

Lemma hit_outcome_sublist target bs pts bs' pts' :
  hit_outcome target bs pts bs' pts' ->
  (forall b, In b bs' -> In b bs) /\ (pts <= pts' <= pts + 1).
Proof.
  intros [(l1 & l2 & -> & _ & -> & ->)|(_ & -> & ->)].
  - split; [|lia]. intros b Hb. apply in_app_iff.
    apply in_app_iff in Hb as [Hb|Hb]; [left|right; right]; exact Hb.
  - split; [auto|lia].
Qed.

(** One frame of a running game keeps the invariant. *)
Lemma frame_game_inv (e : Env) (g : Game) :
  game_inv g -> run g = true ->
  exists g', frame e g = Some g' /\ game_inv g'
    /\ player_pts g <= player_pts g' <= player_pts g + 1
    /\ ai_pts g <= ai_pts g' <= ai_pts g + 1.
Proof.
  intros ([Hwf Hwin] & Hp & Ha & Hsp & Hsa) Hrun.
  destruct (frame_steps e g Hwf)
    as (action & g2 & g3 & _ & _ & Hh & _ & Hf & _ & Hp3 & Ha3 & Hpp3 & Hap3 & _).
  set (g0 := player_input e (handle_events e g)) in *.
  set (g1 := update_phase (set_ai (ai_act e action (ai g0)) g0)) in *.
  destruct (handle_events_fields e g) as (Hep & Hea & Hepp & Heap & _).
  assert (Hp1 : tank_ok (player g1)).
  { change (player g1) with (Tank.update_bullets (player g0)).
    apply armed_ok_update.
    apply (player_input_closed armed_ok);
      [exact armed_ok_move|exact armed_ok_shoot|].
    rewrite Hep. destruct Hp as (Hpos & Hc & _). split; assumption. }
  assert (Ha1 : tank_ok (ai g1)).
  { change (ai g1) with (Tank.update_bullets (ai_act e action (ai g0))).
    apply armed_ok_update.
    apply (ai_act_closed armed_ok);
      [exact armed_ok_move|exact armed_ok_shoot|].
    change (ai g0) with (ai (handle_events e g)).
    rewrite Hea. destruct Ha as (Hpos & Hc & _). split; assumption. }
  assert (Hpp1 : player_pts g1 = player_pts g) by exact Hepp.
  assert (Hap1 : ai_pts g1 = ai_pts g) by exact Heap.
  destruct (hit_detection_spec g1)
    as (g2' & Hh' & Hoa & Hop & Hp2 & Ha2 & _).
  rewrite Hh in Hh'. injection Hh' as <-.
  apply hit_outcome_sublist in Hoa as [Hsa2 Hpa2].
  apply hit_outcome_sublist in Hop as [Hsp2 Hpp2].
  destruct (frame_inv e g Hwf) as (g' & Hf' & Hinv).
  rewrite Hf in Hf'. injection Hf' as <-.
  destruct (win_check_spec g3) as (Hwp & Hwa & Hwpp & Hwap & _).
  assert (Hlt : player_pts g < WIN_SCORE /\ ai_pts g < WIN_SCORE).
  { split.
    - destruct (Z_lt_le_dec (player_pts g) WIN_SCORE) as [H|H]; [exact H|].
      rewrite Hwin in Hrun by (left; exact H). discriminate.
    - destruct (Z_lt_le_dec (ai_pts g) WIN_SCORE) as [H|H]; [exact H|].
      rewrite Hwin in Hrun by (right; exact H). discriminate. }
  exists (win_check g3). split; [exact Hf|].
  rewrite Hwpp, Hwap, Hpp3, Hap3.
  rewrite Hpp1 in Hpp2. rewrite Hap1 in Hpa2.
  split; [|split; assumption].
  split; [exact Hinv|]. rewrite Hwp, Hwa, Hp3, Ha3, Hp2, Ha2.
  unfold scores_ok. rewrite Hwpp, Hwap, Hpp3, Hap3.
  destruct Hp1 as (Hpos1 & Hc1 & Hr1). destruct Ha1 as (Hposa & Hca & Hra).
  split; [|split].
  - split; [exact Hpos1|]. simpl. split; intros b Hb;
      [apply Hc1|apply Hr1]; apply Hsp2; exact Hb.
  - split; [exact Hposa|]. simpl. split; intros b Hb;
      [apply Hca|apply Hra]; apply Hsa2; exact Hb.
  - lia.
Qed.

Lemma main_loop_game_inv (envs : list Env) : forall g,
  game_inv g ->
  exists g' n, main_loop envs g = Some (g', n) /\ game_inv g'
    /\ player_pts g <= player_pts g' /\ ai_pts g <= ai_pts g'.
Proof.
  induction envs as [|e rest IH]; intros g Hinv; simpl.
  - exists g, 0%nat. split; [reflexivity|]. split; [exact Hinv|]. lia.
  - destruct (run g) eqn:Hrun.
    + destruct (frame_game_inv e g Hinv Hrun) as (g1 & Hf & Hinv1 & Hp & Ha).
      rewrite Hf.
      destruct (IH g1 Hinv1) as (g' & n & Hm & Hinv' & Hp' & Ha').
      rewrite Hm. exists g', (S n). split; [reflexivity|].
      split; [exact Hinv'|]. lia.
    + exists g, 0%nat. split; [reflexivity|]. split; [exact Hinv|]. lia.
Qed.

Lemma game_inv_main_init : game_inv main_init.
Proof.
  split; [exact loop_inv_main_init|].
  unfold tank_ok, tank_on_grid, cols_in_grid, rows_in_grid, scores_ok,
    in_grid, GRID_SIZE, WIN_SCORE. simpl.
  repeat split; try lia; intros b [].
Qed.

(** X1. In a game started by [main], whatever the inputs of its frames,
    each time the loop tests its run flag both tanks stand on the grid and
    every projectile in flight is on a cell of the grid. *)
Theorem X1_game_stays_on_grid (envs : list Env) :
  exists g n,
    main_loop envs main_init = Some (g, n)
    /\ in_grid (Tank.x (player g)) /\ in_grid (Tank.y (player g))
    /\ in_grid (Tank.x (ai g)) /\ in_grid (Tank.y (ai g))
    /\ (forall b, In b (Tank.bullets (player g) ++ Tank.bullets (ai g)) ->
          in_grid (fst b) /\ in_grid (snd b)).
Proof.
  destruct (main_loop_game_inv envs main_init game_inv_main_init)
    as (g & n & Hm & (_ & ([Hpx Hpy] & Hpc & Hpr) & ([Hax Hay] & Hac & Har) & _) & _).
  exists g, n. split; [exact Hm|]. repeat (split; [assumption|]).
  intros b Hb. apply in_app_iff in Hb as [Hb|Hb]; split; auto.
Qed.

(** Feeding the loop a sequence of inputs is feeding it the first part and
    then, from the game that part ends in, the rest; the frame counts add
    up. *)
Lemma main_loop_app (envs more : list Env) (g : Game) :
  main_loop (envs ++ more) g =
    match main_loop envs g with
    | Some (g1, n1) =>
        match main_loop more g1 with
        | Some (g2, n2) => Some (g2, (n1 + n2)%nat)
        | None => None
        end
    | None => None
    end.
Proof.
  revert g. induction envs as [|e rest IH]; intros g; simpl.
  - destruct (main_loop more g) as [[g2 n2]|]; reflexivity.
  - destruct (run g) eqn:Hrun.
    + destruct (frame e g) as [g1|]; [|reflexivity].
      rewrite IH. destruct (main_loop rest g1) as [[g2 n]|]; [|reflexivity].
      destruct (main_loop more g2) as [[g3 n3]|]; reflexivity.
    + rewrite (main_loop_stopped more g Hrun). reflexivity.
Qed.

(** The theorem at a game of one frame in which the player holds LEFT and
    the space bar with the cooldown over. *)
Lemma X1_game_on_grid_witness :
  exists g n,
    main_loop
      ({| quit := false; K_LEFT := true; K_RIGHT := false; K_UP := false;
          K_DOWN := false; K_SPACE := true; player_ticks := (1500, 1500);
          ai_ticks := (1500, 1501); rnd := (1 # 2)%Q; pick := 4%nat |} :: nil)
      main_init = Some (g, n)
    /\ (forall b, In b (Tank.bullets (player g)) -> in_grid (snd b)).
Proof.
  edestruct X1_game_stays_on_grid as (g & n & Hm & _ & _ & _ & _ & Hb).
  exists g, n. split; [exact Hm|].
  intros b Hin. apply Hb. apply in_app_iff. left. exact Hin.
Defined.

(** X2. In a game started by [main], a frame changes each counter by 0 or
    1, the counters never go down, and neither counter ever exceeds the win
    threshold 10. *)
Theorem X2_scores_monotone_and_capped :
  (forall e g, game_inv g -> run g = true ->
     exists g', frame e g = Some g'
       /\ player_pts g <= player_pts g' <= player_pts g + 1
       /\ ai_pts g <= ai_pts g' <= ai_pts g + 1)
  /\ (forall envs more, exists g n g' n',
        main_loop envs main_init = Some (g, n)
        /\ main_loop (envs ++ more) main_init = Some (g', n')
        /\ 0 <= player_pts g <= player_pts g' /\ player_pts g' <= 10
        /\ 0 <= ai_pts g <= ai_pts g' /\ ai_pts g' <= 10).
Proof.
  split.
  - intros e g Hinv Hrun.
    destruct (frame_game_inv e g Hinv Hrun) as (g' & Hf & _ & Hp & Ha).
    exists g'. auto.
  - intros envs more.
    destruct (main_loop_game_inv envs main_init game_inv_main_init)
      as (g & n & Hm & Hinv & Hp & Ha).
    destruct (main_loop_game_inv more g Hinv)
      as (g' & n' & Hm' & (_ & _ & _ & Hsp & Hsa) & Hp' & Ha').
    exists g, n, g', (n + n')%nat. split; [exact Hm|]. split.
    + rewrite main_loop_app, Hm, Hm'. reflexivity.
    + unfold WIN_SCORE in *. simpl in Hp, Ha. lia.
Qed.

(** The theorem at the game one hit before the player's win. *)
Lemma X2_scores_witness :
  exists g', frame idle_env last_frame_game = Some g'
             /\ 9 <= player_pts g' <= 10.
Proof.
  destruct X2_scores_monotone_and_capped as [Hframe _].
  destruct (Hframe idle_env last_frame_game) as (g' & Hf & Hp & _).
  - split; [split; [exact table_wf_empty|]|].
    + unfold WIN_SCORE. simpl. lia.
    + unfold tank_ok, tank_on_grid, cols_in_grid, rows_in_grid, scores_ok,
        in_grid, GRID_SIZE, WIN_SCORE. simpl.
      repeat split; try lia; try contradiction;
        match goal with H : _ \/ False |- _ => destruct H as [<-|[]] end;
        simpl; lia.
  - reflexivity.
  - exists g'. split; [exact Hf|]. simpl in Hp. lia.
Defined.

(** ** The loop *)

Lemma main_loop_count (envs : list Env) : forall g g' n,
  main_loop envs g = Some (g', n) ->
  (n <= length envs)%nat /\ (run g' = true -> n = length envs).
Proof.
  induction envs as [|e rest IH]; intros g g' n; simpl.
  - intros [= <- <-]. split; [lia|reflexivity].
  - destruct (run g) eqn:Hrun.
    + destruct (frame e g) as [g1|]; [|discriminate].
      destruct (main_loop rest g1) as [[g2 m]|] eqn:Hm; [|discriminate].
      intros [= <- <-]. destruct (IH _ _ _ Hm) as [Hle Heq].
      split; [lia|]. intros Hr. rewrite (Heq Hr). reflexivity.
    + intros [= <- <-]. split; [lia|]. intros Hr. congruence.
Qed.

(** X3. Feeding the loop a sequence of frame inputs is feeding it a first
    part and then, from the game that part ends in, the rest; the numbers of
    executed frames add up (an error in either part is an error of the
    whole).  The loop executes at most one frame per input, and when it ends
    with the run flag still true it has executed a frame for every input. *)
Theorem X3_main_loop_composes (envs more : list Env) (g : Game) :
  main_loop (envs ++ more) g =
    match main_loop envs g with
    | Some (g1, n1) =>
        match main_loop more g1 with
        | Some (g2, n2) => Some (g2, (n1 + n2)%nat)
        | None => None
        end
    | None => None
    end
  /\ (forall g' n, main_loop envs g = Some (g', n) ->
        (n <= length envs)%nat /\ (run g' = true -> n = length envs)).
Proof.
  split; [apply main_loop_app|apply main_loop_count].
Qed.

(** The theorem at the first frame of a game. *)
Lemma X3_main_loop_witness :
  exists g', main_loop (idle_env :: nil) main_init = Some (g', 1%nat).
Proof.
  destruct (main_loop (idle_env :: nil) main_init) as [[g' n]|] eqn:Hm;
    [|vm_compute in Hm; discriminate Hm].
  destruct (X3_main_loop_composes (idle_env :: nil) nil main_init) as [_ Hc].
  destruct (Hc g' n Hm) as [_ Hn].
  exists g'. rewrite Hn; [reflexivity|].
  vm_compute in Hm. injection Hm as <- _. reflexivity.
Defined.

(** The run flag a game enters a frame with only decides the run flag it
    leaves the frame with. *)
Lemma frame_set_run (e : Env) (r : bool) (g : Game) :
  quit e = false ->
  frame e (set_run r g) =
    match frame e g with
    | Some g' =>
        Some (if (player_pts g' >=? WIN_SCORE) || (ai_pts g' >=? WIN_SCORE)
              then g' else set_run r g')
    | None => None
    end.
Proof.
  intros Hq.
  unfold frame, before_hits, handle_events, ai_decision. rewrite Hq. simpl.
  destruct (QLearningAgent.choose_action _ _ _ _) as [[action qt]|];
    [|reflexivity].
  unfold hit_detection. simpl.
  destruct (hit_scan _ _ _ _ (ai_pts g)) as [[abs apts]|]; [|reflexivity].
  simpl.
  destruct (hit_scan _ _ _ _ (player_pts g)) as [[pbs ppts]|]; [|reflexivity].
  unfold learn_phase. simpl.
  destruct (QLearningAgent.learn _ _ _ _ _) as [qt'|]; [|reflexivity].
  unfold win_check. simpl.
  destruct ((ppts >=? WIN_SCORE) || (apts >=? WIN_SCORE)) eqn:E; simpl;
    rewrite ?E; reflexivity.
Qed.

Lemma frame_quit (e : Env) (g : Game) :
  quit e = true -> frame e g = frame (no_quit e) (set_run false g).
Proof.
  intros Hq. unfold frame, before_hits, handle_events. rewrite Hq. reflexivity.
Qed.

(** X4. A QUIT event does not cut the frame short: the frame that reads it
    still moves the tanks, advances the projectiles, scores hits and updates
    the Q-table exactly as the same frame without the event would, and leaves
    with the run flag false; the loop then ends after this one frame, leaving
    further input unread. *)
Theorem X4_quit_ends_loop_after_full_frame (e : Env) (rest : list Env)
    (g : Game) :
  table_wf (q_table g) -> run g = true -> quit e = true ->
  exists g0,
    frame (no_quit e) g = Some g0
    /\ frame e g = Some (set_run false g0)
    /\ main_loop (e :: rest) g = Some (set_run false g0, 1%nat).
Proof.
  intros Hwf Hrun Hq.
  destruct (frame_inv (no_quit e) g Hwf) as (g0 & Hf0 & _ & Hwin).
  assert (Hf : frame e g = Some (set_run false g0)).
  { rewrite (frame_quit e g Hq), frame_set_run by reflexivity. rewrite Hf0.
    destruct ((player_pts g0 >=? WIN_SCORE) || (ai_pts g0 >=? WIN_SCORE)) eqn:E;
      [|reflexivity].
    assert (Hr : run g0 = false).
    { apply Hwin. apply orb_true_iff in E.
      rewrite !Z.geb_leb, !Z.leb_le in E. exact E. }
    destruct g0; simpl in *. subst. reflexivity. }
  exists g0. split; [exact Hf0|]. split; [exact Hf|].
  simpl. rewrite Hrun, Hf. rewrite main_loop_stopped by reflexivity.
  reflexivity.
Qed.

(** The theorem at the first frame of a game, with a QUIT event queued
    and more input waiting. *)
Lemma X4_quit_witness :
  exists g0, main_loop (quit_env :: idle_env :: nil) main_init
             = Some (set_run false g0, 1%nat).
Proof.
  destruct (X4_quit_ends_loop_after_full_frame quit_env (idle_env :: nil)
              main_init table_wf_empty eq_refl eq_refl) as (g0 & _ & _ & Hm).
  exists g0. exact Hm.
Defined.

(** ** The Q-table during learning *)

Lemma dict_set_values k v d w :
  In w (dict_values (dict_set k v d)) -> w = v \/ In w (dict_values d).
Proof.
  induction d as [|[k' v'] rest IH]; simpl.
  - intros [<-|[]]. auto.
  - destruct (k' =? k)%string; simpl.
    + intros [<-|H]; auto.
    + intros [<-|H]; [auto|]. destruct (IH H); auto.
Qed.

Lemma table_zero_empty : table_zero QLearningAgent.init.
Proof.
  intros s row v H. unfold QLearningAgent.init in H.
  rewrite lookup_empty in H. discriminate.
Qed.

Lemma lazy_rows_zero (old_s new_s : QLearningAgent.State)
    (q : QLearningAgent.QTable) :
  table_zero q ->
  table_zero (QLearningAgent.ensure new_s (QLearningAgent.ensure old_s q)).
Proof.
  intros Hz s row v. rewrite lazy_rows_lookup.
  destruct (decide (s = old_s \/ s = new_s)) as [_|_]; [|apply Hz].
  destruct (q !! s) as [r|] eqn:E; simpl; intros [= <-].
  - apply (Hz s). exact E.
  - simpl. intros H. repeat destruct H as [<-|H]; try reflexivity.
    contradiction.
Qed.

Lemma learn_zero (old_s new_s : QLearningAgent.State) (action : string)
    (q q' : QLearningAgent.QTable) :
  table_wf q -> table_zero q -> In action ACTIONS ->
  QLearningAgent.learn old_s action 0%Q new_s q = Some q' ->
  table_zero q'.
Proof.
  intros Hwf Hz Hact Hl.
  destruct (learn_with_unfold LEARNING_RATE DISCOUNT old_s new_s action 0%Q
              q Hwf Hact)
    as (row & nrow & old_q & future_q & Hrow & _ & Hold & Hnrow & _ & Hmax & Heq).
  unfold QLearningAgent.learn in Hl. rewrite Heq in Hl. injection Hl as <-.
  pose proof (lazy_rows_zero old_s new_s q Hz) as Hz0.
  assert (Ho : (old_q == 0)%Q).
  { apply (Hz0 _ _ _ Hrow). eapply dict_get_values. exact Hold. }
  assert (Hf : (future_q == 0)%Q).
  { destruct (py_max_spec (dict_values nrow)) as (m & Hm & Hin & _).
    - intros E. rewrite E in Hmax. discriminate.
    - rewrite Hmax in Hm. injection Hm as <-. apply (Hz0 _ _ _ Hnrow Hin). }
  intros s r v. destruct (decide (s = old_s)) as [->|N].
  - rewrite lookup_insert_eq. intros [= <-] Hv.
    apply dict_set_values in Hv as [->|Hv].
    + rewrite Ho, Hf. reflexivity.
    + apply (Hz0 _ _ _ Hrow Hv).
  - rewrite lookup_insert_ne by congruence. apply Hz0.
Qed.

Lemma q_value_zero (q : QLearningAgent.QTable) s a :
  table_zero q -> (q_value q s a == 0)%Q.
Proof.
  intros Hz. unfold q_value. destruct (q !! s) as [row|] eqn:E; [|reflexivity].
  destruct (dict_get a row) as [v|] eqn:Ev; simpl; [|reflexivity].
  apply (Hz _ _ _ E). eapply dict_get_values. exact Ev.
Qed.

Lemma frame_zero (e : Env) (g g' : Game) :
  table_wf (q_table g) -> table_zero (q_table g) ->
  frame e g = Some g' -> table_zero (q_table g').
Proof.
  intros Hwf Hz Hf.
  destruct (frame_steps e g Hwf)
    as (action & g2 & g3 & Hact & _ & Hh & Hl & Hf' & _).
  rewrite Hf in Hf'. injection Hf' as ->.
  destruct (win_check_spec g3) as (_ & _ & _ & _ & -> & _).
  set (g0 := player_input e (handle_events e g)) in *.
  set (g1 := update_phase (set_ai (ai_act e action (ai g0)) g0)) in *.
  destruct (hit_detection_spec g1) as (g2' & Hh' & _ & _ & _ & _ & _ & Hq2).
  rewrite Hh in Hh'. injection Hh' as <-.
  assert (Hq : q_table g2 = q_table g).
  { rewrite Hq2.
    destruct (handle_events_fields e g) as (_ & _ & _ & _ & Hq & _). exact Hq. }
  unfold learn_phase in Hl.
  destruct (QLearningAgent.learn _ _ _ _ _) as [qt|] eqn:El; [|discriminate].
  injection Hl as <-. simpl. rewrite Hq in El.
  eapply learn_zero; eassumption.
Qed.

Lemma main_loop_zero (envs : list Env) : forall g g' n,
  table_wf (q_table g) -> table_zero (q_table g) ->
  main_loop envs g = Some (g', n) ->
  table_wf (q_table g') /\ table_zero (q_table g').
Proof.
  induction envs as [|e rest IH]; intros g g' n Hwf Hz; simpl.
  - intros [= <- <-]. auto.
  - destruct (run g); [|intros [= <- <-]; auto].
    destruct (frame e g) as [g1|] eqn:Hf; [|discriminate].
    destruct (main_loop rest g1) as [[g2 m]|] eqn:Hm; [|discriminate].
    intros [= <- <-].
    destruct (frame_inv e g Hwf) as (g1' & Hf' & [Hwf1 _]).
    rewrite Hf in Hf'. injection Hf' as <-.
    eapply IH; [exact Hwf1|exact (frame_zero e g g1 Hwf Hz Hf)|exact Hm].
Qed.

(** On a table of zeros the greedy branch finds five tied keys and returns
    the first. *)
Lemma greedy_on_zero_row (row : Row) :
  dict_keys row = ACTIONS ->
  (forall v, In v (dict_values row) -> (v == 0)%Q) ->
  py_max_key row = Some "UP"%string.
Proof.
  intros Hk Hz.
  destruct (py_max_key_spec row) as (a & v & l1 & l2 & Hm & Ha & Hkeys & _ & Hfirst).
  { intros ->. discriminate Hk. }
  rewrite Hm. f_equal.
  rewrite Hk in Hkeys. destruct l1 as [|k l1].
  - unfold ACTIONS in Hkeys. simpl in Hkeys. injection Hkeys as <- _.
    reflexivity.
  - exfalso. destruct (dict_get_in_keys k row) as [v' Hv'].
    { rewrite Hk, Hkeys. left. reflexivity. }
    pose proof (Hfirst k v' (or_introl eq_refl) Hv') as Hlt.
    pose proof (Hz v' (dict_get_values _ _ _ Hv')) as H0.
    pose proof (Hz v (dict_get_values _ _ _ Ha)) as H1.
    rewrite H0, H1 in Hlt. discriminate Hlt.
Qed.

(** X5. [learn] with reward 0, the only reward [main] ever passes, keeps a
    table of zeros a table of zeros: if every stored value is 0 before the
    call, every stored value is 0 after it, so every estimate [Q(s,a)] is
    still 0. *)
Theorem X5_learn_reward_zero_keeps_zero_table
    (old_s new_s : QLearningAgent.State) (action : string)
    (q : QLearningAgent.QTable) :
  table_wf q -> table_zero q -> In action ACTIONS ->
  exists q',
    QLearningAgent.learn old_s action 0%Q new_s q = Some q'
    /\ table_zero q'
    /\ forall s a, (q_value q' s a == 0)%Q.
Proof.
  intros Hwf Hz Hact.
  destruct (learn_with_unfold LEARNING_RATE DISCOUNT old_s new_s action 0%Q
              q Hwf Hact)
    as (row & nrow & old_q & future_q & _ & _ & _ & _ & _ & _ & Heq).
  eexists. split; [exact Heq|].
  assert (Hz' : table_zero
            (<[old_s := dict_set action
                 (old_q + LEARNING_RATE * (0 + DISCOUNT * future_q - old_q))%Q
                 row]>
               (QLearningAgent.ensure new_s (QLearningAgent.ensure old_s q))))
    by (eapply learn_zero; eassumption).
  split; [exact Hz'|]. intros s a. apply q_value_zero. exact Hz'.
Qed.

(** The theorem at the first learning step of a game. *)
Lemma X5_learn_zero_witness :
  exists q', QLearningAgent.learn first_state "UP" 0%Q second_state
               QLearningAgent.init = Some q'
             /\ (q_value q' first_state "UP" == 0)%Q.
Proof.
  assert (Hact : In "UP"%string ACTIONS) by (unfold ACTIONS; simpl; tauto).
  destruct (X5_learn_reward_zero_keeps_zero_table first_state second_state "UP"
              QLearningAgent.init table_wf_empty table_zero_empty Hact)
    as (q' & Hl & _ & Hv).
  exists q'. split; [exact Hl|apply Hv].
Defined.

(** X6. In a game started by [main] the agent never learns anything:
    whatever the inputs, every estimate in the Q-table is 0 each time the
    loop tests its run flag.  On such a table (in general: on a well-formed
    table of zeros), whenever [choose_action] does not explore, that is when
    the draw is not below 0.1 and the state has a row, it returns "UP". *)
Theorem X6_game_table_stays_zero_and_greedy_is_up (envs : list Env) :
  exists g n,
    main_loop envs main_init = Some (g, n)
    /\ (forall s a, (q_value (q_table g) s a == 0)%Q)
    /\ (forall rnd pick state,
          ~ (rnd < 1 # 10)%Q -> is_Some (q_table g !! state) ->
          QLearningAgent.choose_action rnd pick state (q_table g)
            = Some ("UP"%string, q_table g)).
Proof.
  destruct (main_loop_inv envs main_init loop_inv_main_init)
    as (g & n & Hm & _).
  destruct (main_loop_zero envs main_init g n table_wf_empty table_zero_empty Hm)
    as [Hwf Hz].
  exists g, n. split; [exact Hm|]. split.
  - intros s a. apply q_value_zero. exact Hz.
  - intros rnd pick state Hr [row Hrow].
    unfold QLearningAgent.choose_action.
    assert (Hb : Qlt_bool rnd EPSILON
                 || negb (bool_decide (is_Some (q_table g !! state))) = false).
    { destruct (Qlt_bool rnd EPSILON) eqn:E.
      - apply Qlt_bool_iff in E. exfalso. apply Hr. exact E.
      - rewrite Hrow. rewrite bool_decide_eq_true_2 by (eexists; reflexivity).
        reflexivity. }
    rewrite Hb, Hrow.
    rewrite (greedy_on_zero_row row (Hwf _ _ Hrow) (fun v => Hz _ _ v Hrow)).
    reflexivity.
Qed.

(** The theorem at a game of one frame: the state key of that frame has
    been learnt, and the draw 1/2 is greedy. *)
Lemma X6_greedy_witness :
  exists g n,
    main_loop (idle_env :: nil) main_init = Some (g, n)
    /\ QLearningAgent.choose_action (1 # 2) 3 first_state (q_table g)
         = Some ("UP"%string, q_table g).
Proof.
  destruct (X6_game_table_stays_zero_and_greedy_is_up (idle_env :: nil))
    as (g & n & Hm & _ & Hg).
  exists g, n. split; [exact Hm|]. apply Hg.
  - intros H. discriminate H.
  - vm_compute in Hm. injection Hm as <- _. eexists. reflexivity.
Defined.

Lemma ensure_dom (s : QLearningAgent.State) (q : QLearningAgent.QTable) :
  dom (QLearningAgent.ensure s q) = {[s]} ∪ dom q.
Proof.
  unfold QLearningAgent.ensure. destruct (q !! s) as [row|] eqn:E.
  - assert (s ∈ dom q) by (apply elem_of_dom; eexists; exact E). set_solver.
  - apply dom_insert_L.
Qed.

Lemma learn_dom (old_s new_s : QLearningAgent.State) (action : string)
    (reward : Q) (q q' : QLearningAgent.QTable) :
  table_wf q -> In action ACTIONS ->
  QLearningAgent.learn old_s action reward new_s q = Some q' ->
  dom q' = {[old_s; new_s]} ∪ dom q.
Proof.
  intros Hwf Hact Hl.
  destruct (learn_with_unfold LEARNING_RATE DISCOUNT old_s new_s action reward
              q Hwf Hact)
    as (row & nrow & old_q & future_q & _ & _ & _ & _ & _ & _ & Heq).
  unfold QLearningAgent.learn in Hl. rewrite Heq in Hl. injection Hl as <-.
  rewrite dom_insert_L, !ensure_dom. set_solver.
Qed.

(** X7. [learn] never removes a state from the Q-table and adds exactly the
    two states it is given: afterwards the table's keys are the keys it had
    together with [old_s] and [new_s], so the table grows by at most two
    rows per call. *)
Theorem X7_learn_adds_only_its_two_states
    (old_s new_s : QLearningAgent.State) (action : string) (reward : Q)
    (q : QLearningAgent.QTable) :
  table_wf q -> In action ACTIONS ->
  exists q',
    QLearningAgent.learn old_s action reward new_s q = Some q'
    /\ dom q' = {[old_s; new_s]} ∪ dom q
    /\ (forall s, is_Some (q !! s) -> is_Some (q' !! s))
    /\ (size q <= size q' <= size q + 2)%nat.
Proof.
  intros Hwf Hact.
  destruct (learn_with_unfold LEARNING_RATE DISCOUNT old_s new_s action reward
              q Hwf Hact)
    as (row & nrow & old_q & future_q & _ & _ & _ & _ & _ & _ & Heq).
  eexists. split; [exact Heq|].
  pose proof (learn_dom _ _ _ _ _ _ Hwf Hact Heq) as Hdom.
  split; [exact Hdom|]. split.
  - intros s Hs. apply elem_of_dom. rewrite Hdom.
    apply elem_of_union_r. apply elem_of_dom. exact Hs.
  - rewrite <- !size_dom, Hdom. split.
    + apply subseteq_size. set_solver.
    + rewrite size_union_alt.
      assert (size (dom q ∖ {[old_s; new_s]}) <= size (dom q))%nat
        by (apply subseteq_size; set_solver).
      assert (size ({[old_s; new_s]} : gset QLearningAgent.State) <= 2)%nat.
      { destruct (decide (old_s = new_s)) as [->|N].
        - replace ({[new_s; new_s]} : gset QLearningAgent.State)
            with ({[new_s]} : gset QLearningAgent.State) by set_solver.
          rewrite size_singleton. lia.
        - rewrite size_union by set_solver. rewrite !size_singleton. lia. }
      lia.
Qed.

(** The theorem at a table that knows the first state and learns a step to
    the second. *)
Lemma X7_learn_dom_witness :
  exists q',
    QLearningAgent.learn first_state "DOWN" 0%Q second_state sample_table
      = Some q'
    /\ (size q' <= 3)%nat.
Proof.
  assert (Hwf : table_wf sample_table).
  { intros st r. unfold sample_table.
    destruct (decide (st = first_state)) as [->|N].
    - rewrite lookup_insert_eq. intros [= <-]. reflexivity.
    - rewrite lookup_insert_ne by congruence. rewrite lookup_empty.
      discriminate. }
  assert (Ha : In "DOWN"%string ACTIONS) by (unfold ACTIONS; simpl; tauto).
  destruct (X7_learn_adds_only_its_two_states first_state second_state "DOWN"
              0%Q sample_table Hwf Ha) as (q' & Hl & _ & _ & _ & Hs).
  exists q'. split; [exact Hl|].
  assert (size sample_table = 1%nat) by reflexivity. lia.
Defined.

(** X8. [learn] changes one estimate only: for every state [s0] and action
    [a0] other than the pair [(old_s, action)] it was called with, the
    estimate [Q(s0,a0)] the table stands for (0 for a state without a row) is
    the same after the call as before. *)
Theorem X8_learn_leaves_other_estimates
    (old_s new_s : QLearningAgent.State) (action : string) (reward : Q)
    (q : QLearningAgent.QTable) :
  table_wf q -> In action ACTIONS ->
  exists q',
    QLearningAgent.learn old_s action reward new_s q = Some q'
    /\ forall s0 a0, s0 <> old_s \/ a0 <> action ->
         q_value q' s0 a0 = q_value q s0 a0.
Proof.
  intros Hwf Hact.
  destruct (learn_with_unfold LEARNING_RATE DISCOUNT old_s new_s action reward
              q Hwf Hact)
    as (row & nrow & old_q & future_q & Hrow & _ & _ & _ & _ & _ & Heq).
  eexists. split; [exact Heq|].
  assert (Hlazy : forall s0 a0,
            q_value (QLearningAgent.ensure new_s (QLearningAgent.ensure old_s q))
              s0 a0 = q_value q s0 a0).
  { intros s0 a0. unfold q_value. rewrite lazy_rows_lookup.
    destruct (decide (s0 = old_s \/ s0 = new_s)) as [_|_]; [|reflexivity].
    destruct (q !! s0) as [r|]; [reflexivity|].
    change (default 0%Q (dict_get a0 QLearningAgent.zero_row) = 0%Q).
    destruct (dict_get a0 QLearningAgent.zero_row) as [v|] eqn:E;
      [|reflexivity].
    apply dict_get_values in E. simpl in E.
    repeat destruct E as [<-|E]; try reflexivity. contradiction. }
  intros s0 a0 Hne. rewrite <- Hlazy. unfold q_value at 1.
  destruct (decide (s0 = old_s)) as [->|N].
  - rewrite lookup_insert_eq.
    rewrite dict_get_set_ne by (destruct Hne; congruence).
    unfold q_value. rewrite Hrow. reflexivity.
  - rewrite lookup_insert_ne by congruence. reflexivity.
Qed.

(** The theorem at the table with a non-zero estimate for "DOWN" in the
    first state, when "UP" is updated in the same state. *)
Lemma X8_learn_others_witness :
  exists q',
    QLearningAgent.learn first_state "UP" 0%Q second_state sample_table
      = Some q'
    /\ q_value q' first_state "DOWN" = 1%Q.
Proof.
  assert (Hwf : table_wf sample_table).
  { intros st r. unfold sample_table.
    destruct (decide (st = first_state)) as [->|N].
    - rewrite lookup_insert_eq. intros [= <-]. reflexivity.
    - rewrite lookup_insert_ne by congruence. rewrite lookup_empty.
      discriminate. }
  assert (Ha : In "UP"%string ACTIONS) by (unfold ACTIONS; simpl; tauto).
  destruct (X8_learn_leaves_other_estimates first_state second_state "UP"
              0%Q sample_table Hwf Ha) as (q' & Hl & Hv).
  exists q'. split; [exact Hl|].
  rewrite Hv by (right; discriminate). reflexivity.
Defined.

(** X9. An action name that is not one of the five makes [learn] fail (the
    [KeyError] of [self.q_table[old_s][action]]), on every well-formed table
    and for every states and reward; and [choose_action] on a well-formed
    table never fails and never returns such a name. *)
Theorem X9_unknown_action_is_a_key_error
    (old_s new_s : QLearningAgent.State) (action : string) (reward : Q)
    (q : QLearningAgent.QTable) :
  table_wf q ->
  (~ In action ACTIONS ->
     QLearningAgent.learn old_s action reward new_s q = None)
  /\ (forall rnd pick state,
        exists a, QLearningAgent.choose_action rnd pick state q = Some (a, q)
                  /\ In a ACTIONS).
Proof.
  intros Hwf. split; [|intros rnd pick state; apply choose_action_total, Hwf].
  intros Hact. unfold QLearningAgent.learn, QLearningAgent.learn_with.
  assert (Hwf0 : table_wf
            (QLearningAgent.ensure new_s (QLearningAgent.ensure old_s q)))
    by (apply ensure_wf, ensure_wf, Hwf).
  destruct (QLearningAgent.ensure new_s (QLearningAgent.ensure old_s q) !! old_s)
    as [row|] eqn:Erow; [|reflexivity].
  destruct (dict_get action row) as [v|] eqn:Ev; [|reflexivity].
  exfalso. apply Hact. rewrite <- (Hwf0 _ _ Erow).
  eapply dict_get_Some_in_keys. exact Ev.
Qed.

(** The theorem at the empty table and the action name "JUMP". *)
Lemma X9_key_error_witness :
  QLearningAgent.learn first_state "JUMP" 0%Q second_state QLearningAgent.init
    = None.
Proof.
  apply (X9_unknown_action_is_a_key_error first_state second_state "JUMP" 0%Q
           QLearningAgent.init table_wf_empty).
  unfold ACTIONS. simpl. intros H.
  repeat destruct H as [H|H]; try discriminate H. exact H.
Defined.

(** ** The size of the Q-table *)

Lemma key_index_bound (s : QLearningAgent.State) :
  key_on_grid s -> (key_index s < Z.to_nat 10000)%nat.
Proof.
  destruct s as [[[ax ay] px] py]. unfold key_on_grid, key_index, in_grid,
    GRID_SIZE. intros (Ha & Hb & Hc & Hd).
  apply Z2Nat.inj_lt; lia.
Qed.

Lemma key_index_inj (s1 s2 : QLearningAgent.State) :
  key_on_grid s1 -> key_on_grid s2 -> key_index s1 = key_index s2 -> s1 = s2.
Proof.
  destruct s1 as [[[a1 b1] c1] d1], s2 as [[[a2 b2] c2] d2].
  unfold key_on_grid, key_index, in_grid, GRID_SIZE.
  intros (Ha1 & Hb1 & Hc1 & Hd1) (Ha2 & Hb2 & Hc2 & Hd2) H.
  apply Z2Nat.inj in H; [|lia|lia].
  assert (a1 = a2 /\ b1 = b2 /\ c1 = c2 /\ d1 = d2) as (-> & -> & -> & ->)
    by lia.
  reflexivity.
Qed.

Lemma keys_on_grid_size (q : QLearningAgent.QTable) :
  keys_on_grid q -> Z.of_nat (size q) <= 10000.
Proof.
  intros Hk. rewrite <- size_dom.
  change (size (dom q)) with (length (elements (dom q))).
  cut (length (elements (dom q)) <= Z.to_nat 10000)%nat; [lia|].
  assert (Hg : forall s, s ∈ elements (dom q) -> key_on_grid s).
  { intros s Hs. apply Hk. apply elem_of_dom. apply elem_of_elements. exact Hs. }
  rewrite <- (length_fmap key_index).
  rewrite <- (length_seq (Z.to_nat 10000) 0).
  apply submseteq_length. apply NoDup_submseteq.
  - apply NoDup_fmap_2_strong; [|apply NoDup_elements].
    intros s1 s2 H1 H2. apply key_index_inj; auto.
  - intros i Hi. apply list_elem_of_fmap in Hi as (s & -> & Hs).
    apply elem_of_seq. pose proof (key_index_bound s (Hg s Hs)). lia.
Qed.

Lemma keys_on_grid_empty : keys_on_grid QLearningAgent.init.
Proof.
  intros s [row H]. unfold QLearningAgent.init in H.
  rewrite lookup_empty in H. discriminate.
Qed.

Lemma armed_ok_handle_input (e : Env) (g : Game) :
  armed_ok (player g) -> armed_ok (ai g) ->
  armed_ok (player (player_input e (handle_events e g)))
  /\ ai (player_input e (handle_events e g)) = ai g.
Proof.
  intros Hp Ha. destruct (handle_events_fields e g) as (Hep & Hea & _).
  split.
  - apply (player_input_closed armed_ok);
      [exact armed_ok_move|exact armed_ok_shoot|]. rewrite Hep. exact Hp.
  - exact Hea.
Qed.

(** The keys [learn] adds in a frame are made of the tanks' positions. *)
Lemma frame_keys (e : Env) (g g' : Game) :
  game_inv g -> keys_on_grid (q_table g) ->
  frame e g = Some g' -> keys_on_grid (q_table g').
Proof.
  intros ([Hwf _] & (Hpp & Hpc & _) & (Hap & Hac & _) & _) Hk Hf.
  destruct (frame_steps e g Hwf)
    as (action & g2 & g3 & Hact & _ & Hh & Hl & Hf' & _).
  rewrite Hf in Hf'. injection Hf' as ->.
  destruct (win_check_spec g3) as (_ & _ & _ & _ & -> & _).
  set (g0 := player_input e (handle_events e g)) in *.
  set (g1 := update_phase (set_ai (ai_act e action (ai g0)) g0)) in *.
  destruct (armed_ok_handle_input e g (conj Hpp Hpc) (conj Hap Hac))
    as [[Hp0 _] Ha0]. fold g0 in Hp0, Ha0.
  assert (Ha0' : tank_on_grid (ai g0)) by (rewrite Ha0; exact Hap).
  assert (Ha1 : tank_on_grid (ai_act e action (ai g0))).
  { apply (ai_act_closed armed_ok);
      [exact armed_ok_move|exact armed_ok_shoot|].
    rewrite Ha0. split; assumption. }
  destruct (hit_detection_spec g1) as (g2' & Hh' & _ & _ & Hp2 & Ha2 & _ & Hq2).
  rewrite Hh in Hh'. injection Hh' as <-.
  assert (Hq : q_table g2 = q_table g).
  { rewrite Hq2.
    destruct (handle_events_fields e g) as (_ & _ & _ & _ & Hq & _). exact Hq. }
  unfold learn_phase in Hl.
  destruct (QLearningAgent.learn _ _ _ _ _) as [qt|] eqn:El; [|discriminate].
  injection Hl as <-. simpl. rewrite Hq in El.
  pose proof (learn_dom _ _ _ _ _ _ Hwf Hact El) as Hdom.
  intros s Hs. apply elem_of_dom in Hs. rewrite Hdom in Hs.
  apply elem_of_union in Hs as [Hs|Hs].
  - apply elem_of_union in Hs as [Hs|Hs]; apply elem_of_singleton in Hs;
      subst s.
    + destruct Hp0 as [Hx Hy]. destruct Ha0' as [Hax Hay].
      unfold QLearningAgent.get_state, key_on_grid. auto.
    + rewrite Hp2, Ha2. unfold QLearningAgent.get_state, key_on_grid. simpl.
      destruct Hp0 as [Hx Hy]. destruct Ha1 as [Hax Hay]. auto.
  - apply Hk. apply elem_of_dom. exact Hs.
Qed.

Lemma main_loop_keys (envs : list Env) : forall g g' n,
  game_inv g -> keys_on_grid (q_table g) ->
  main_loop envs g = Some (g', n) -> keys_on_grid (q_table g').
Proof.
  induction envs as [|e rest IH]; intros g g' n Hinv Hk; simpl.
  - intros [= <- <-]. exact Hk.
  - destruct (run g) eqn:Hrun; [|intros [= <- <-]; exact Hk].
    destruct (frame_game_inv e g Hinv Hrun) as (g1 & Hf & Hinv1 & _).
    rewrite Hf.
    destruct (main_loop rest g1) as [[g2 m]|] eqn:Hm; [|discriminate].
    intros [= <- <-].
    exact (IH g1 g2 m Hinv1 (frame_keys e g g1 Hinv Hk Hf) Hm).
Qed.

(** X10. In a game started by [main] every key of the Q-table is a 4-tuple
    of grid coordinates (the tanks' positions in some frame), so the table
    never holds more than [10^4] rows, however long the game runs. *)
Theorem X10_game_table_within_state_space (envs : list Env) :
  exists g n,
    main_loop envs main_init = Some (g, n)
    /\ (forall ax ay px py, is_Some (q_table g !! (ax, ay, px, py)) ->
          in_grid ax /\ in_grid ay /\ in_grid px /\ in_grid py)
    /\ Z.of_nat (size (q_table g)) <= 10000.
Proof.
  destruct (main_loop_game_inv envs main_init game_inv_main_init)
    as (g & n & Hm & _).
  pose proof (main_loop_keys envs main_init g n game_inv_main_init
                keys_on_grid_empty Hm) as Hk.
  exists g, n. split; [exact Hm|]. split.
  - intros ax ay px py Hs. exact (Hk _ Hs).
  - apply keys_on_grid_size. exact Hk.
Qed.

(** The theorem at a game of one frame. *)
Lemma X10_table_size_witness :
  exists g n, main_loop (idle_env :: nil) main_init = Some (g, n)
              /\ is_Some (q_table g !! first_state).
Proof.
  destruct (X10_game_table_within_state_space (idle_env :: nil))
    as (g & n & Hm & _).
  exists g, n. split; [exact Hm|].
  vm_compute in Hm. injection Hm as <- _. eexists. reflexivity.
Defined.

(** ** The flight of a projectile *)

Lemma update_occurrences (self : Tank.t) c r :
  occurrences (c, r) (Tank.bullets (Tank.update_bullets self)) =
    if (0 <=? r) && (r <? GRID_SIZE)
    then occurrences (c, r - row_dy self) (Tank.bullets self) else 0%nat.
Proof.
  unfold Tank.update_bullets. simpl. rewrite keep_in_grid_occurrences. simpl.
  destruct ((0 <=? r) && (r <? GRID_SIZE)); [|reflexivity].
  apply shift_rows_occurrences.
Qed.

Lemma updates_fields (n : nat) (self : Tank.t) :
  Tank.is_player (updates n self) = Tank.is_player self
  /\ Tank.x (updates n self) = Tank.x self
  /\ Tank.y (updates n self) = Tank.y self
  /\ Tank.last_shot_time (updates n self) = Tank.last_shot_time self.
Proof.
  induction n as [|n IH]; simpl; [auto|]. exact IH.
Qed.

Lemma updates_occurrences (n : nat) (self : Tank.t) c r :
  let back := r - Z.of_nat n * row_dy self in
  (in_grid r -> in_grid back ->
     occurrences (c, r) (Tank.bullets (updates (S n) self))
       = occurrences (c, back - row_dy self) (Tank.bullets self))
  /\ (~ (in_grid r /\ in_grid back) ->
        occurrences (c, r) (Tank.bullets (updates (S n) self)) = 0%nat).
Proof.
  revert r. induction n as [|n IH]; intros r back; subst back.
  - change (updates 1 self) with (Tank.update_bullets self).
    rewrite update_occurrences. split.
    + intros Hr _. rewrite (proj2 (in_grid_test r) Hr). f_equal. f_equal. lia.
    + intros Hn. destruct ((0 <=? r) && (r <? GRID_SIZE)) eqn:E; [|reflexivity].
      apply in_grid_test in E. exfalso. apply Hn. split; [exact E|].
      replace (r - Z.of_nat 0 * row_dy self) with r by lia. exact E.
  - change (updates (S (S n)) self)
      with (Tank.update_bullets (updates (S n) self)).
    rewrite update_occurrences.
    assert (Hdy : row_dy (updates (S n) self) = row_dy self).
    { unfold row_dy. destruct (updates_fields (S n) self) as [-> _].
      reflexivity. }
    rewrite Hdy. destruct (IH (r - row_dy self)) as [IH1 IH2].
    assert (Hstep : row_dy self = -1 \/ row_dy self = 1)
      by (unfold row_dy; destruct (Tank.is_player self); auto).
    replace (r - row_dy self - Z.of_nat n * row_dy self)
      with (r - Z.of_nat (S n) * row_dy self) in IH1, IH2 by lia.
    split.
    + intros Hr Hb. rewrite (proj2 (in_grid_test r) Hr).
      apply IH1; [|exact Hb]. unfold in_grid, GRID_SIZE in *. nia.
    + intros Hn. destruct ((0 <=? r) && (r <? GRID_SIZE)) eqn:E; [|reflexivity].
      apply in_grid_test in E. apply IH2. intros [_ Hb]. apply Hn.
      split; assumption.
Qed.

(** X11. A projectile flies in a straight line and is gone once it has left
    the grid.  After [n+1] calls of [update_bullets] with no shot in between,
    a cell on the grid holds exactly the projectiles that were [n+1] rows
    behind it (below for the player, above for the AI), provided the row they
    reached with the first of these calls is on the grid, and holds none
    otherwise.  So after [GRID_SIZE + 1] calls no projectile is left, and
    after [GRID_SIZE] calls none is left of a list that started on the grid.
    The tank itself is not changed by these calls. *)
Theorem X11_projectile_flight (n : nat) (self : Tank.t) :
  let dy := if Tank.is_player self then -1 else 1 in
  let self' := updates (S n) self in
  (forall c r,
     (in_grid r -> in_grid (r - Z.of_nat n * dy) ->
        occurrences (c, r) (Tank.bullets self')
          = occurrences (c, r - Z.of_nat (S n) * dy) (Tank.bullets self))
     /\ (~ (in_grid r /\ in_grid (r - Z.of_nat n * dy)) ->
           occurrences (c, r) (Tank.bullets self') = 0%nat))
  /\ (GRID_SIZE <= Z.of_nat n -> Tank.bullets self' = nil)
  /\ (GRID_SIZE <= Z.of_nat (S n) -> rows_in_grid (Tank.bullets self) ->
      Tank.bullets self' = nil)
  /\ Tank.x self' = Tank.x self /\ Tank.y self' = Tank.y self
  /\ Tank.is_player self' = Tank.is_player self
  /\ Tank.last_shot_time self' = Tank.last_shot_time self.
Proof.
  intros dy self'.
  assert (Hstep : dy = -1 \/ dy = 1)
    by (subst dy; destruct (Tank.is_player self); auto).
  assert (Hocc : forall c r,
     (in_grid r -> in_grid (r - Z.of_nat n * dy) ->
        occurrences (c, r) (Tank.bullets self')
          = occurrences (c, r - Z.of_nat (S n) * dy) (Tank.bullets self))
     /\ (~ (in_grid r /\ in_grid (r - Z.of_nat n * dy)) ->
           occurrences (c, r) (Tank.bullets self') = 0%nat)).
  { intros c r. unfold self'.
    destruct (updates_occurrences n self c r) as [H1 H2].
    unfold row_dy in H1, H2. fold dy in H1, H2. split; [|exact H2].
    intros Hr Hb. rewrite (H1 Hr Hb). f_equal. f_equal. nia. }
  split; [exact Hocc|]. split; [|split].
  - intros Hn. apply (count_occ_inv_nil Bullet_eq_dec). intros [c r].
    apply (proj2 (Hocc c r)). unfold in_grid, GRID_SIZE in *. nia.
  - intros Hn Hrows. apply (count_occ_inv_nil Bullet_eq_dec). intros [c r].
    destruct (Hocc c r) as [H1 H2].
    destruct (Z_le_gt_dec 0 r) as [Hr0|Hr0];
      [destruct (Z_le_gt_dec r (GRID_SIZE - 1)) as [Hr1|Hr1]|];
      [|apply H2; unfold in_grid; lia|apply H2; unfold in_grid; lia].
    destruct (Z_le_gt_dec 0 (r - Z.of_nat n * dy)) as [Hb0|Hb0];
      [destruct (Z_le_gt_dec (r - Z.of_nat n * dy) (GRID_SIZE - 1)) as [Hb1|Hb1]|];
      [|apply H2; unfold in_grid; lia|apply H2; unfold in_grid; lia].
    change (count_occ Bullet_eq_dec (Tank.bullets self') (c, r))
      with (occurrences (c, r) (Tank.bullets self')).
    rewrite H1 by (unfold in_grid; lia).
    apply (count_occ_not_In Bullet_eq_dec). intros Hin.
    apply Hrows in Hin. simpl in Hin. unfold in_grid, GRID_SIZE in *. nia.
  - destruct (updates_fields (S n) self) as (Hp & Hx & Hy & Hl). auto.
Qed.

(** The theorem at the player's tank with a projectile on row 8: after two
    updates it is on row 6, after ten it is gone. *)
Lemma X11_projectile_flight_witness :
  let self := Tank.set_bullets ((5, 8) :: nil) (Tank.init 5 9 true) in
  occurrences (5, 6) (Tank.bullets (updates 2 self)) = 1%nat
  /\ Tank.bullets (updates 10 self) = nil.
Proof.
  intros self.
  destruct (X11_projectile_flight 1 self) as [H1 _].
  destruct (X11_projectile_flight 9 self) as (_ & _ & H3 & _).
  split.
  - destruct (H1 5 6) as [H _]. rewrite H; [reflexivity| |];
      unfold in_grid, GRID_SIZE; simpl; lia.
  - apply H3; [unfold GRID_SIZE; lia|].
    intros b [<-|[]]. unfold in_grid, GRID_SIZE. simpl. lia.
Defined.

(** ** Rendering *)

Lemma CELL_SIZE_value : CELL_SIZE = 60.
Proof. reflexivity. Qed.

(** X12. [draw] paints the tank as the full pixel square of its cell and
    one circle of radius 5 per projectile, centred in the projectile's cell
    and well inside it, all in the tank's colour (green for the player, red
    for the AI).  The grid cells tile the window exactly, so a tank on the
    grid whose projectiles are on the grid is drawn entirely inside the
    600 x 600 window. *)
Theorem X12_draw_stays_in_cells_and_window (self : Tank.t) :
  (exists rest,
     Tank_draw self = Rect (Tank_color self)
                        (Tank.x self * 60) (Tank.y self * 60) 60 60 :: rest
     /\ bounding_box (Rect (Tank_color self)
                        (Tank.x self * 60) (Tank.y self * 60) 60 60)
        = cell_box (Tank.x self) (Tank.y self)
     /\ length rest = length (Tank.bullets self)
     /\ (forall i b, nth_error (Tank.bullets self) i = Some b ->
           exists s, nth_error rest i = Some s
             /\ s = Circle (Tank_color self)
                      (fst b * 60 + 30) (snd b * 60 + 30) 5
             /\ box_within (bounding_box s) (cell_box (fst b) (snd b))))
  /\ (forall c r, in_grid c -> in_grid r ->
        box_within (cell_box c r) (0, 0, WIDTH, HEIGHT))
  /\ (tank_ok self ->
      forall s, In s (Tank_draw self) ->
        box_within (bounding_box s) (0, 0, WIDTH, HEIGHT)).
Proof.
  assert (Hcell : forall c r, in_grid c -> in_grid r ->
            box_within (cell_box c r) (0, 0, WIDTH, HEIGHT)).
  { intros c r Hc Hr. unfold box_within, cell_box, in_grid, GRID_SIZE,
      WIDTH, HEIGHT in *. rewrite CELL_SIZE_value. lia. }
  assert (Hcircle : forall b : Bullet,
            box_within
              (bounding_box (Circle (Tank_color self)
                               (fst b * 60 + 30) (snd b * 60 + 30) 5))
              (cell_box (fst b) (snd b))).
  { intros b. unfold box_within, cell_box, bounding_box.
    rewrite CELL_SIZE_value. lia. }
  assert (Htrans : forall b1 c r,
            box_within b1 (cell_box c r) -> in_grid c -> in_grid r ->
            box_within b1 (0, 0, WIDTH, HEIGHT)).
  { intros [[[l t] r0] b0] c r H Hc Hr. specialize (Hcell c r Hc Hr).
    unfold box_within, cell_box in *. lia. }
  split; [|split; [exact Hcell|]].
  - eexists. split; [reflexivity|].
    split; [unfold cell_box, bounding_box; rewrite CELL_SIZE_value;
            f_equal; [f_equal|]; lia|].
    split; [apply length_map|].
    intros i b Hb. eexists. split; [apply map_nth_error; exact Hb|].
    split; [reflexivity|]. apply Hcircle.
  - intros ([Hx Hy] & Hc & Hr) s [<-|Hs].
    + apply (Htrans _ (Tank.x self) (Tank.y self)); [|exact Hx|exact Hy].
      unfold box_within, cell_box, bounding_box. rewrite CELL_SIZE_value.
      lia.
    + apply in_map_iff in Hs as (b & <- & Hb).
      apply (Htrans _ (fst b) (snd b)); [apply Hcircle|apply Hc|apply Hr];
        exact Hb.
Qed.

(** The theorem at the AI's tank in the bottom-right corner of the grid
    with a projectile in the top-left corner. *)
Lemma X12_draw_witness :
  let self := Tank.set_bullets ((0, 0) :: nil) (Tank.init 9 9 false) in
  box_within (bounding_box (Rect (255, 0, 0) 540 540 60 60))
    (0, 0, WIDTH, HEIGHT)
  /\ box_within (bounding_box (Circle (255, 0, 0) 30 30 5))
       (0, 0, WIDTH, HEIGHT).
Proof.
  intros self.
  destruct (X12_draw_stays_in_cells_and_window self) as (_ & _ & H).
  assert (Hok : tank_ok self).
  { unfold tank_ok, tank_on_grid, cols_in_grid, rows_in_grid, in_grid,
      GRID_SIZE. simpl.
    repeat split; try lia;
      match goal with H : _ \/ False |- _ => destruct H as [<-|[]] end;
      simpl; lia. }
  split; apply (H Hok); simpl; auto.
Defined.

(** ** How far a tank moves in a frame *)

Lemma move_LEFT t :
  Tank.move "LEFT" t = if 0 <? Tank.x t then Tank.set_x (Tank.x t - 1) t else t.
Proof. unfold Tank.move. simpl. rewrite Z.gtb_ltb. reflexivity. Qed.

Lemma move_RIGHT t :
  Tank.move "RIGHT" t =
    if Tank.x t <? GRID_SIZE - 1 then Tank.set_x (Tank.x t + 1) t else t.
Proof. unfold Tank.move. simpl. reflexivity. Qed.

Lemma move_UP t :
  Tank.move "UP" t = if 0 <? Tank.y t then Tank.set_y (Tank.y t - 1) t else t.
Proof.
  unfold Tank.move. simpl. rewrite Z.gtb_ltb.
  destruct (0 <? Tank.y t); reflexivity.
Qed.

Lemma move_DOWN t :
  Tank.move "DOWN" t =
    if Tank.y t <? GRID_SIZE - 1 then Tank.set_y (Tank.y t + 1) t else t.
Proof.
  unfold Tank.move. simpl. destruct (Tank.y t <? GRID_SIZE - 1); reflexivity.
Qed.

Lemma shoot_position ticks t :
  Tank.x (Tank.shoot ticks t) = Tank.x t /\ Tank.y (Tank.shoot ticks t) = Tank.y t.
Proof.
  unfold Tank.shoot. destruct (Tank.can_shoot (fst ticks) t); simpl; auto.
Qed.

Lemma move_one_cell d t :
  Z.abs (Tank.x (Tank.move d t) - Tank.x t)
  + Z.abs (Tank.y (Tank.move d t) - Tank.y t) <= 1.
Proof.
  case_direction d.
  - rewrite move_UP. destruct (0 <? Tank.y t); simpl; lia.
  - rewrite move_DOWN. destruct (Tank.y t <? GRID_SIZE - 1); simpl; lia.
  - rewrite move_LEFT. destruct (0 <? Tank.x t); simpl; lia.
  - rewrite move_RIGHT. destruct (Tank.x t <? GRID_SIZE - 1); simpl; lia.
  - unfold Tank.move. rewrite !(proj2 (String.eqb_neq _ _)) by assumption.
    simpl. lia.
Qed.

Lemma move_LEFT_pos t :
  Tank.x (Tank.move "LEFT" t) = (if 0 <? Tank.x t then Tank.x t - 1 else Tank.x t)
  /\ Tank.y (Tank.move "LEFT" t) = Tank.y t.
Proof. rewrite move_LEFT. destruct (0 <? Tank.x t); auto. Qed.

Lemma move_RIGHT_pos t :
  Tank.x (Tank.move "RIGHT" t) =
    (if Tank.x t <? GRID_SIZE - 1 then Tank.x t + 1 else Tank.x t)
  /\ Tank.y (Tank.move "RIGHT" t) = Tank.y t.
Proof. rewrite move_RIGHT. destruct (Tank.x t <? GRID_SIZE - 1); auto. Qed.

Lemma move_UP_pos t :
  Tank.x (Tank.move "UP" t) = Tank.x t
  /\ Tank.y (Tank.move "UP" t) = (if 0 <? Tank.y t then Tank.y t - 1 else Tank.y t).
Proof. rewrite move_UP. destruct (0 <? Tank.y t); auto. Qed.

Lemma move_DOWN_pos t :
  Tank.x (Tank.move "DOWN" t) = Tank.x t
  /\ Tank.y (Tank.move "DOWN" t) =
       (if Tank.y t <? GRID_SIZE - 1 then Tank.y t + 1 else Tank.y t).
Proof. rewrite move_DOWN. destruct (Tank.y t <? GRID_SIZE - 1); auto. Qed.

Lemma player_input_player (e : Env) (g : Game) :
  player (player_input e g) =
    (if K_SPACE e then Tank.shoot (player_ticks e) else id)
      ((if K_DOWN e then Tank.move "DOWN" else id)
         ((if K_UP e then Tank.move "UP" else id)
            ((if K_RIGHT e then Tank.move "RIGHT" else id)
               ((if K_LEFT e then Tank.move "LEFT" else id) (player g))))).
Proof.
  unfold player_input.
  destruct (K_SPACE e), (K_DOWN e), (K_UP e), (K_RIGHT e), (K_LEFT e);
    reflexivity.
Qed.

Lemma shoot_x ticks t : Tank.x (Tank.shoot ticks t) = Tank.x t.
Proof. apply shoot_position. Qed.

Lemma shoot_y ticks t : Tank.y (Tank.shoot ticks t) = Tank.y t.
Proof. apply shoot_position. Qed.

Lemma move_LEFT_x t :
  Tank.x (Tank.move "LEFT" t) = if 0 <? Tank.x t then Tank.x t - 1 else Tank.x t.
Proof. apply move_LEFT_pos. Qed.

Lemma move_LEFT_y t : Tank.y (Tank.move "LEFT" t) = Tank.y t.
Proof. apply move_LEFT_pos. Qed.

Lemma move_RIGHT_x t :
  Tank.x (Tank.move "RIGHT" t) =
    if Tank.x t <? GRID_SIZE - 1 then Tank.x t + 1 else Tank.x t.
Proof. apply move_RIGHT_pos. Qed.

Lemma move_RIGHT_y t : Tank.y (Tank.move "RIGHT" t) = Tank.y t.
Proof. apply move_RIGHT_pos. Qed.

Lemma move_UP_x t : Tank.x (Tank.move "UP" t) = Tank.x t.
Proof. apply move_UP_pos. Qed.

Lemma move_UP_y t :
  Tank.y (Tank.move "UP" t) = if 0 <? Tank.y t then Tank.y t - 1 else Tank.y t.
Proof. apply move_UP_pos. Qed.

Lemma move_DOWN_x t : Tank.x (Tank.move "DOWN" t) = Tank.x t.
Proof. apply move_DOWN_pos. Qed.

Lemma move_DOWN_y t :
  Tank.y (Tank.move "DOWN" t) =
    if Tank.y t <? GRID_SIZE - 1 then Tank.y t + 1 else Tank.y t.
Proof. apply move_DOWN_pos. Qed.

Create Rewrite HintDb tank_pos.
#[local] Hint Rewrite shoot_x shoot_y move_LEFT_x move_LEFT_y move_RIGHT_x
  move_RIGHT_y move_UP_x move_UP_y move_DOWN_x move_DOWN_y : tank_pos.

(** X13. In one frame the player's tank moves at most one cell along each
    axis (it can move diagonally), and the AI's tank at most one cell in
    all.  For the player, on the grid, opposite keys held together cancel,
    except against the wall the first of the two keys points to: with LEFT
    and RIGHT held in column 0 the tank ends in column 1, and with UP and
    DOWN held in row 0 it ends in row 1. *)
Theorem X13_moves_per_frame (e : Env) (g : Game) :
  let p := player g in
  let p' := player (player_input e g) in
  Z.abs (Tank.x p' - Tank.x p) <= 1 /\ Z.abs (Tank.y p' - Tank.y p) <= 1
  /\ (forall action,
        Z.abs (Tank.x (ai_act e action (ai g)) - Tank.x (ai g))
        + Z.abs (Tank.y (ai_act e action (ai g)) - Tank.y (ai g)) <= 1)
  /\ (tank_on_grid p -> K_LEFT e = true -> K_RIGHT e = true ->
      Tank.x p' = if Tank.x p =? 0 then 1 else Tank.x p)
  /\ (tank_on_grid p -> K_UP e = true -> K_DOWN e = true ->
      Tank.y p' = if Tank.y p =? 0 then 1 else Tank.y p).
Proof.
  intros p p'. subst p'. rewrite player_input_player. fold p.
  split; [|split; [|split; [|split]]].
  - destruct (K_SPACE e), (K_DOWN e), (K_UP e), (K_RIGHT e), (K_LEFT e);
      unfold id; autorewrite with tank_pos; unfold GRID_SIZE; case_ltb; lia.
  - destruct (K_SPACE e), (K_DOWN e), (K_UP e), (K_RIGHT e), (K_LEFT e);
      unfold id; autorewrite with tank_pos; unfold GRID_SIZE; case_ltb; lia.
  - intros action. unfold ai_act.
    destruct (action =? "SHOOT")%string;
      [rewrite shoot_x, shoot_y|];
      destruct (is_move action); try apply move_one_cell; lia.
  - intros [[Hx0 Hx1] _] -> ->.
    destruct (K_SPACE e), (K_DOWN e), (K_UP e);
      unfold id; autorewrite with tank_pos; unfold GRID_SIZE in *; case_ltb; lia.
  - intros [_ [Hy0 Hy1]] -> ->.
    destruct (K_SPACE e), (K_RIGHT e), (K_LEFT e);
      unfold id; autorewrite with tank_pos; unfold GRID_SIZE in *; case_ltb; lia.
Qed.

(** The theorem at the player's tank in the top-left corner with all four
    arrow keys held: it ends one cell down and one cell right. *)
Lemma X13_moves_witness :
  let e := {| quit := false; K_LEFT := true; K_RIGHT := true; K_UP := true;
              K_DOWN := true; K_SPACE := false; player_ticks := (0, 0);
              ai_ticks := (0, 0); rnd := (1 # 2)%Q; pick := 0%nat |} in
  let g := set_player (Tank.init 0 0 true) main_init in
  Tank.x (player (player_input e g)) = 1
  /\ Tank.y (player (player_input e g)) = 1.
Proof.
  intros e g.
  destruct (X13_moves_per_frame e g) as (_ & _ & _ & Hx & Hy).
  assert (Hg : tank_on_grid (player g))
    by (unfold tank_on_grid, in_grid, GRID_SIZE; simpl; lia).
  split; [apply (Hx Hg); reflexivity|apply (Hy Hg); reflexivity].
Defined.

(** ** A projectile and a tank that cross *)

Lemma choose_action_explore (rnd : Q) (pick : nat)
    (state : QLearningAgent.State) (q : QLearningAgent.QTable) :
  (rnd < EPSILON)%Q ->
  QLearningAgent.choose_action rnd pick state q =
    match random_choice pick ACTIONS with
    | Some a => Some (a, q)
    | None => None
    end.
Proof.
  intros H. unfold QLearningAgent.choose_action.
  rewrite (proj2 (Qlt_bool_iff rnd EPSILON) H). reflexivity.
Qed.

Lemma player_input_quiet_fields (e : Env) (g : Game) :
  K_SPACE e = false ->
  Tank.bullets (player (player_input e g)) = Tank.bullets (player g)
  /\ Tank.is_player (player (player_input e g)) = Tank.is_player (player g).
Proof.
  intros Hs. rewrite player_input_player, Hs. unfold id.
  destruct (K_DOWN e), (K_UP e), (K_RIGHT e), (K_LEFT e);
    repeat match goal with
    | |- context [Tank.move ?d ?t] =>
        destruct (move_other_fields d t) as (-> & -> & _)
    end; auto.
Qed.

(** X14. Hits are tested on equal cells after both have moved, so a
    projectile and a tank that move towards each other from adjacent cells
    swap cells without a hit.  If a player projectile is in the cell just
    below the AI's tank and the agent's action in this frame is "DOWN" (here:
    an exploring draw with index 1), then after the frame the tank stands
    where the projectile was, the projectile is where the tank was, and no
    counter has changed. *)
Theorem X14_adjacent_projectile_and_tank_swap_without_hit
    (e : Env) (g : Game) (c r : Z) :
  table_wf (q_table g) -> Tank.is_player (player g) = true ->
  Tank.x (ai g) = c -> Tank.y (ai g) = r -> 0 <= r < GRID_SIZE - 1 ->
  Tank.bullets (player g) = (c, r + 1) :: nil -> Tank.bullets (ai g) = nil ->
  K_SPACE e = false -> (rnd e < 1 # 10)%Q -> (pick e mod 5 = 1)%nat ->
  exists g',
    frame e g = Some g'
    /\ Tank.x (ai g') = c /\ Tank.y (ai g') = r + 1
    /\ Tank.bullets (player g') = (c, r) :: nil
    /\ player_pts g' = player_pts g /\ ai_pts g' = ai_pts g.
Proof.
  intros Hwf Hpl Hx Hy Hr Hpb Hab Hsp Hrnd Hpick.
  destruct (frame_steps e g Hwf)
    as (action & g2 & g3 & _ & Hb & Hh & _ & Hf & _ & Hp3 & Ha3 & Hpp3 & Hap3 & _).
  set (g0 := player_input e (handle_events e g)) in *.
  destruct (handle_events_fields e g) as (Hep & Hea & Hepp & Heap & _).
  assert (Hdown : action = "DOWN"%string).
  { unfold before_hits, ai_decision in Hb. fold g0 in Hb.
    rewrite (choose_action_explore _ _ _ _ Hrnd) in Hb.
    unfold random_choice in Hb. change (length ACTIONS) with 5%nat in Hb.
    rewrite Hpick in Hb. simpl in Hb. injection Hb as <- _. reflexivity. }
  subst action.
  set (g1 := update_phase (set_ai (ai_act e "DOWN" (ai g0)) g0)) in *.
  destruct (player_input_quiet_fields e (handle_events e g) Hsp) as [Hb0 Hi0].
  fold g0 in Hb0, Hi0. rewrite Hep in Hb0, Hi0.
  assert (Hpb1 : Tank.bullets (player g1) = (c, r) :: nil).
  { change (Tank.bullets (player g1))
      with (Tank.keep_in_grid
              (Tank.shift_rows (if Tank.is_player (player g0) then -1 else 1)
                 (Tank.bullets (player g0)))).
    rewrite Hi0, Hb0, Hpl, Hpb. simpl.
    replace (r + 1 + -1) with r by lia.
    rewrite (proj2 (in_grid_test r)) by (unfold in_grid; lia). reflexivity. }
  assert (Ha1 : ai g1 = Tank.update_bullets (Tank.move "DOWN" (ai g))).
  { change (ai g1)
      with (Tank.update_bullets (Tank.move "DOWN" (ai (handle_events e g)))).
    rewrite Hea. reflexivity. }
  assert (Hab1 : Tank.bullets (ai g1) = nil).
  { rewrite Ha1.
    change (Tank.bullets (Tank.update_bullets (Tank.move "DOWN" (ai g))))
      with (Tank.keep_in_grid
              (Tank.shift_rows
                 (if Tank.is_player (Tank.move "DOWN" (ai g)) then -1 else 1)
                 (Tank.bullets (Tank.move "DOWN" (ai g))))).
    destruct (move_other_fields "DOWN" (ai g)) as (_ & -> & _).
    rewrite Hab. reflexivity. }
  assert (Hpos1 : Tank.x (ai g1) = c /\ Tank.y (ai g1) = r + 1).
  { rewrite Ha1.
    change (Tank.x (Tank.update_bullets (Tank.move "DOWN" (ai g))))
      with (Tank.x (Tank.move "DOWN" (ai g))).
    change (Tank.y (Tank.update_bullets (Tank.move "DOWN" (ai g))))
      with (Tank.y (Tank.move "DOWN" (ai g))).
    rewrite move_DOWN_x, move_DOWN_y, Hx, Hy.
    rewrite (proj2 (Z.ltb_lt _ _)) by lia. auto. }
  destruct (hit_detection_spec g1) as (g2' & Hh' & Hoa & Hop & Hp2 & Ha2 & _).
  rewrite Hh in Hh'. injection Hh' as <-.
  rewrite Hab1 in Hoa. rewrite Hpb1 in Hop.
  destruct Hpos1 as [Hx1 Hy1]. rewrite Hx1, Hy1 in Hop.
  assert (Hmiss : ~ In (c, r + 1) ((c, r) :: nil)).
  { intros [H|[]]. injection H as H. lia. }
  assert (Hp' : Tank.bullets (player g2) = (c, r) :: nil
                /\ player_pts g2 = player_pts g1).
  { destruct Hop as [(l1 & l2 & Hbs & _)|(_ & -> & ->)]; [|auto].
    exfalso. apply Hmiss. rewrite Hbs. apply in_app_iff. right. left.
    reflexivity. }
  assert (Ha' : ai_pts g2 = ai_pts g1).
  { destruct Hoa as [(l1 & l2 & Hbs & _)|(_ & _ & ->)]; [|reflexivity].
    destruct l1; discriminate Hbs. }
  destruct Hp' as [Hpb2 Hpp2].
  destruct (win_check_spec g3) as (Hwp & Hwa & Hwpp & Hwap & _).
  exists (win_check g3). split; [exact Hf|].
  split; [rewrite Hwa, Ha3, Ha2; exact Hx1|].
  split; [rewrite Hwa, Ha3, Ha2; exact Hy1|].
  split; [rewrite Hwp, Hp3; exact Hpb2|].
  split; [rewrite Hwpp, Hpp3, Hpp2; exact Hepp
         |rewrite Hwap, Hap3, Ha'; exact Heap].
Qed.

(** The theorem at a projectile on row 4 under the AI on row 3. *)
Lemma X14_swap_witness :
  exists g', frame ai_down_env face_to_face = Some g'
             /\ Tank.y (ai g') = 4
             /\ Tank.bullets (player g') = (5, 3) :: nil
             /\ player_pts g' = 0.
Proof.
  destruct (X14_adjacent_projectile_and_tank_swap_without_hit ai_down_env
              face_to_face 5 3 table_wf_empty eq_refl eq_refl eq_refl)
    as (g' & Hf & _ & Hy & Hb & Hp & _);
    [unfold GRID_SIZE; lia|reflexivity|reflexivity|reflexivity|reflexivity
    |reflexivity|].
  exists g'. auto.
Defined.

(** ** A shot and the update that follows it *)

(** X15. A shot that is fired spawns one row in front of the tank, and the
    [update_bullets] call that follows it in the same frame moves the new
    projectile one row further before any hit test: after the two calls the
    list is what the update alone would have given, followed by one
    projectile two rows in front of the tank if that row is on the grid, and
    by nothing otherwise.  So the cell directly in front of the shooter never
    receives the new projectile, and a shot fired from the last two rows in
    the firing direction is lost. *)
Theorem X15_fresh_shot_lands_two_rows_ahead (ticks : Z * Z) (self : Tank.t) :
  1000 <= fst ticks - Tank.last_shot_time self ->
  let dy := if Tank.is_player self then -1 else 1 in
  let ahead := Tank.y self + 2 * dy in
  Tank.bullets (Tank.update_bullets (Tank.shoot ticks self)) =
    Tank.bullets (Tank.update_bullets self)
    ++ (if (0 <=? ahead) && (ahead <? GRID_SIZE)
        then (Tank.x self, ahead) :: nil else nil)
  /\ (In (Tank.x self, Tank.y self + dy)
        (Tank.bullets (Tank.update_bullets (Tank.shoot ticks self)))
      <-> In (Tank.x self, Tank.y self + dy)
            (Tank.bullets (Tank.update_bullets self))).
Proof.
  intros Hready dy ahead.
  assert (Heq : Tank.bullets (Tank.update_bullets (Tank.shoot ticks self)) =
    Tank.bullets (Tank.update_bullets self)
    ++ (if (0 <=? ahead) && (ahead <? GRID_SIZE)
        then (Tank.x self, ahead) :: nil else nil)).
  { rewrite shoot_ready by exact Hready.
    unfold Tank.update_bullets, muzzle. simpl.
    rewrite shift_rows_app, keep_in_grid_app. f_equal.
    subst ahead dy. destruct (Tank.is_player self); simpl.
    - replace (Tank.y self - 1 + -1) with (Tank.y self + -2) by lia.
      reflexivity.
    - replace (Tank.y self + 1 + 1) with (Tank.y self + 2) by lia.
      reflexivity. }
  split; [exact Heq|]. rewrite Heq, in_app_iff. split; [|auto].
  intros [H|H]; [exact H|]. exfalso.
  destruct ((0 <=? ahead) && (ahead <? GRID_SIZE)); [|exact H].
  destruct H as [H|[]]. injection H as H.
  subst ahead dy. destruct (Tank.is_player self); lia.
Qed.

(** The theorem at the player on row 1 with the AI's row 0 directly in
    front: the shot is lost; and at the player on row 9. *)
Lemma X15_fresh_shot_witness :
  Tank.bullets (Tank.update_bullets (Tank.shoot (1500, 1500) (Tank.init 5 1 true)))
    = nil
  /\ Tank.bullets (Tank.update_bullets (Tank.shoot (1500, 1500) (Tank.init 5 9 true)))
    = (5, 7) :: nil.
Proof.
  split.
  - destruct (X15_fresh_shot_lands_two_rows_ahead (1500, 1500)
                (Tank.init 5 1 true)) as [H _]; [simpl; lia|exact H].
  - destruct (X15_fresh_shot_lands_two_rows_ahead (1500, 1500)
                (Tank.init 5 9 true)) as [H _]; [simpl; lia|exact H].
Defined.

(** ** The two embeddings of [learn] on tables of zeros *)

Lemma ensure64_dom (s : QLearningAgent.State) (q : QLearningAgent64.QTable) :
  dom (QLearningAgent64.ensure s q) = {[s]} ∪ dom q.
Proof.
  unfold QLearningAgent64.ensure. destruct (q !! s) as [row|] eqn:E.
  - assert (s ∈ dom q) by (apply elem_of_dom; eexists; exact E). set_solver.
  - apply dom_insert_L.
Qed.

(** With reward 0 on tables of zeros, the only situation the frame loop
    puts [learn] in, the binary64 [learn] and the [learn] over exact
    rationals do the same: both succeed, both leave a well-formed table of
    zeros, and both tables have the same keys. *)
Lemma learn_models_agree_on_zeros (old_s new_s : QLearningAgent.State)
    (action : string) (q64 : QLearningAgent64.QTable)
    (q : QLearningAgent.QTable) :
  table_wf64 q64 -> table_zero64 q64 -> table_wf q -> table_zero q ->
  dom q64 = dom q -> In action ACTIONS ->
  exists q64' q',
    QLearningAgent64.learn old_s action 0%float new_s q64 = Some q64'
    /\ QLearningAgent.learn old_s action 0%Q new_s q = Some q'
    /\ table_wf64 q64' /\ table_zero64 q64'
    /\ table_wf q' /\ table_zero q'
    /\ dom q64' = dom q'.
Proof.
  intros Hwf64 Hz64 Hwf Hz Hdom Hact.
  destruct (learn64_unfold QLearningAgent64.LEARNING_RATE
              QLearningAgent64.DISCOUNT old_s new_s action 0%float q64
              Hwf64 Hact)
    as (row & nrow & old_q & future_q & Hrow & Hk & Hold & Hnrow & _ & Hmax & Heq).
  destruct (learn_with_unfold LEARNING_RATE DISCOUNT old_s new_s action 0%Q
              q Hwf Hact)
    as (qrow & qnrow & qold & qfut & _ & _ & _ & _ & _ & _ & Hqeq).
  eexists _, _. split; [exact Heq|]. split; [exact Hqeq|].
  pose proof (lazy_rows64_wf old_s new_s q64 Hwf64) as Hwf0.
  pose proof (lazy_rows64_zero old_s new_s q64 Hz64) as Hz0.
  assert (Ho : old_q = 0%float).
  { apply (Hz0 _ _ _ Hrow). eapply dict_get64_values. exact Hold. }
  assert (Hf : future_q = 0%float).
  { destruct (py_max64_spec (dict_values64 nrow)) as (m & Hm & Hin & _).
    - intros E. rewrite E in Hmax. discriminate.
    - rewrite Hmax in Hm. injection Hm as <-. apply (Hz0 _ _ _ Hnrow Hin). }
  subst old_q future_q.
  split; [|split; [|split; [|split]]].
  - intros st r. destruct (decide (st = old_s)) as [->|N].
    + rewrite lookup_insert_eq. intros [= <-].
      rewrite dict_set64_keys; [exact Hk|rewrite Hk; exact Hact].
    + rewrite lookup_insert_ne by congruence. apply Hwf0.
  - intros st r v. destruct (decide (st = old_s)) as [->|N].
    + rewrite lookup_insert_eq. intros [= <-] Hv.
      apply dict_set64_values in Hv as [->|Hv];
        [reflexivity|apply (Hz0 _ _ _ Hrow Hv)].
    + rewrite lookup_insert_ne by congruence. apply Hz0.
  - exact (learn_with_wf _ _ _ _ _ _ _ _ Hwf Hact Hqeq).
  - exact (learn_zero _ _ _ _ _ Hwf Hz Hact Hqeq).
  - rewrite (learn_dom _ _ _ _ _ _ Hwf Hact Hqeq).
    rewrite dom_insert_L, !ensure64_dom, Hdom. set_solver.
Qed.
